(** * Fraud Shield: validation, feature preparation, risk metrics, report,
      prediction handler and one-time download store.

    Shallow embedding of [utils.py] and [flask_app.py].

    - Python/NumPy floats are IEEE-754 binary64 values: they are modelled
      with the Standard Library's executable [spec_float] operations
      ([SFdiv], [SFmul], [SFcompare]) at precision 53 and maximal
      exponent 1024, so [0/0] is NaN and every comparison with NaN is
      false, as in the running program.
    - A pandas DataFrame is a list of labelled columns; DataFrames are
      mutable objects that live in a heap and are passed by reference.
    - [RESULTS_STORE] is a finite map from tokens to byte strings. *)

From Stdlib Require Import ZArith Bool Lia Ascii.
From Stdlib Require Import Floats.SpecFloat.
From stdpp Require Import gmap strings list pretty.

Local Open Scope Z_scope.

(** ** IEEE-754 binary64 arithmetic *)

Module F64.

Definition prec : Z := 53.
Definition emax : Z := 1024.

Definition float64 := spec_float.

(** Conversion of a Python [int] / [np.int64] to a double
    (round to nearest, ties to even). *)
Definition of_int (z : Z) : float64 := binary_normalize prec emax z 0 false.

Definition div (x y : float64) : float64 := SFdiv prec emax x y.
Definition mul (x y : float64) : float64 := SFmul prec emax x y.

(** [x > y], [x < y], [x <= y] on doubles; all false on NaN. *)
Definition gt (x y : float64) : bool := SFltb y x.
Definition lt (x y : float64) : bool := SFltb x y.
Definition le (x y : float64) : bool := SFleb x y.

Definition is_nan (x : float64) : bool :=
  match x with S754_nan => true | _ => false end.

(** The literal [0.8]: the double nearest to 8/10,
    [0x1.999999999999ap-1]. *)
Definition lit_0_8 : float64 := S754_finite false 7205759403792794 (-53).

(** The literal [0] stored in a float column. *)
Definition zero : float64 := S754_zero false.

End F64.

(** [mrs] is the integer [M] shifted right by [n] bits: its mantissa is
    the quotient, and the round and sticky bits locate the remainder
    with respect to half a unit. *)
Definition shifted (M n : Z) (mrs : shr_record) : Prop :=
  0 <= shr_m mrs /\
  exists rest, M = shr_m mrs * 2 ^ n + rest /\
    match shr_r mrs, shr_s mrs with
    | false, false => rest = 0
    | false, true => 0 < rest /\ 2 * rest < 2 ^ n
    | true, false => 2 * rest = 2 ^ n
    | true, true => 2 ^ n < 2 * rest /\ rest < 2 ^ n
    end.

Abbreviation float64 := F64.float64.

(** ** [calculate_risk_metrics] *)

Inductive risk_level_t := LOW | MEDIUM | HIGH.

Definition risk_level_str (r : risk_level_t) : string :=
  match r with LOW => "LOW" | MEDIUM => "MEDIUM" | HIGH => "HIGH" end.

(** The three optional keys [avg_fraud_probability],
    [max_fraud_probability], [min_fraud_probability] are either all
    present or all absent. *)
Record prob_stats := {
  avg_fraud_probability : float64;
  max_fraud_probability : float64;
  min_fraud_probability : float64
}.

Record metrics := {
  total_transactions : Z;
  legitimate_count : Z;
  fraud_count : Z;
  fraud_rate : float64;
  risk_level : risk_level_t;
  risk_icon : string;
  probability : option prob_stats
}.

(** [np.sum(predictions == v)] *)
Fixpoint count_eq (v : Z) (predictions : list Z) : Z :=
  match predictions with
  | [] => 0
  | p :: ps => (if Z.eqb p v then 1 else 0) + count_eq v ps
  end.

Definition icon_high : string := "⚠️".
Definition icon_medium : string := "⚡".
Definition icon_low : string := "✅".

Section Metrics.

(** NumPy reductions over the probability array.  [np.mean] of a
    non-empty array and the extrema are left abstract; [np.max] and
    [np.min] raise [ValueError] on a zero-size array. *)
Variable np_mean : list float64 -> float64.
Variable np_max : list float64 -> float64.
Variable np_min : list float64 -> float64.

Definition compute_prob_stats (probabilities : list float64) : option prob_stats :=
  match probabilities with
  | [] => None
  | _ => Some {| avg_fraud_probability := np_mean probabilities;
                 max_fraud_probability := np_max probabilities;
                 min_fraud_probability := np_min probabilities |}
  end.

Definition compute_fraud_rate (fraud total : Z) : float64 :=
  F64.mul (F64.div (F64.of_int fraud) (F64.of_int total)) (F64.of_int 100).

Definition classify (rate : float64) : risk_level_t * string :=
  if F64.gt rate (F64.of_int 5) then (HIGH, icon_high)
  else if F64.gt rate (F64.of_int 2) then (MEDIUM, icon_medium)
  else (LOW, icon_low).

(** [None] is an uncaught exception. *)
Definition calculate_risk_metrics (predictions : list Z)
    (probabilities : option (list float64)) : option metrics :=
  let total := Z.of_nat (length predictions) in
  let fraud := count_eq 1 predictions in
  let legit := count_eq 0 predictions in
  let rate := compute_fraud_rate fraud total in
  let '(level, icon) := classify rate in
  let mk stats :=
    {| total_transactions := total;
       legitimate_count := legit;
       fraud_count := fraud;
       fraud_rate := rate;
       risk_level := level;
       risk_icon := icon;
       probability := stats |} in
  match probabilities with
  | None => Some (mk None)
  | Some ps =>
      match compute_prob_stats ps with
      | Some st => Some (mk (Some st))
      | None => None
      end
  end.

End Metrics.

(** ** pandas objects *)

(** Python [bytes]. *)
Abbreviation bytes := (list ascii).

(** An element of an [object] column. *)
Inductive cell :=
| CStr (s : string)
| CNum (x : float64)
| CNone.

(** A column with its dtype.  A missing value in a float column is NaN;
    integer and boolean columns cannot hold one. *)
Inductive series :=
| IntSeries (zs : list Z)
| FloatSeries (xs : list float64)
| BoolSeries (bs : list bool)
| ObjSeries (cs : list cell).

(** A DataFrame: its labelled columns, in order.  [pd.read_csv] produces
    pairwise distinct labels. *)
Abbreviation DataFrame := (list (string * series)).

Definition columns (df : DataFrame) : list string := df.*1.

Definition series_len (s : series) : nat :=
  match s with
  | IntSeries zs => length zs
  | FloatSeries xs => length xs
  | BoolSeries bs => length bs
  | ObjSeries cs => length cs
  end.

(** [len(df)]: the length of the index. *)
Definition nrows (df : DataFrame) : nat :=
  match df with
  | [] => 0%nat
  | (_, s) :: _ => series_len s
  end.

(** [pd.api.types.is_numeric_dtype]: integer, float and boolean dtypes. *)
Definition is_numeric_dtype (s : series) : bool :=
  match s with
  | ObjSeries _ => false
  | _ => true
  end.

(** Membership in [select_dtypes(include=[np.number])]: integer and float
    dtypes; boolean columns are not selected. *)
Definition is_number_dtype (s : series) : bool :=
  match s with
  | IntSeries _ | FloatSeries _ => true
  | _ => false
  end.

Definition cell_missing (c : cell) : bool :=
  match c with
  | CNone => true
  | CNum x => F64.is_nan x
  | CStr _ => false
  end.

(** [s.isna().any()] *)
Definition has_missing (s : series) : bool :=
  match s with
  | FloatSeries xs => existsb F64.is_nan xs
  | ObjSeries cs => existsb cell_missing cs
  | _ => false
  end.

(** [df[name]] *)
Fixpoint get_column (name : string) (df : DataFrame) : option series :=
  match df with
  | [] => None
  | (n, s) :: rest => if decide (n = name) then Some s else get_column name rest
  end.

(** [df[name] = s]: replaces the column in place when the label exists,
    appends a new last column otherwise. *)
Fixpoint set_column (name : string) (s : series) (df : DataFrame) : DataFrame :=
  match df with
  | [] => [(name, s)]
  | (n, s0) :: rest =>
      if decide (n = name) then (n, s) :: rest
      else (n, s0) :: set_column name s rest
  end.

(** [df.drop(name, axis=1)]: a new frame without the column. *)
Definition drop_column (name : string) (df : DataFrame) : DataFrame :=
  filter (fun c => c.1 ≠ name) df.

Definition fillna_cell (c : cell) : cell :=
  if cell_missing c then CNum F64.zero else c.

Definition fillna_series (s : series) : series :=
  match s with
  | FloatSeries xs =>
      FloatSeries ((fun x => if F64.is_nan x then F64.zero else x) <$> xs)
  | ObjSeries cs => ObjSeries (fillna_cell <$> cs)
  | _ => s
  end.

(** [df.fillna(0)]: the contents of the new frame. *)
Definition fillna (df : DataFrame) : DataFrame :=
  (fun c => (c.1, fillna_series c.2)) <$> df.

(** ** [validate_csv_data] *)

Definition expected_features : list string :=
  (fun i : nat => "V" +:+ pretty i) <$> seq 1 28.

(** [repr] of a list of plain strings, as interpolated in the f-string. *)
Definition py_repr_list (l : list string) : string :=
  "[" +:+ String.concat ", " ((fun s => "'" +:+ s +:+ "'") <$> l) +:+ "]".

Definition msg_too_few_columns : string := "CSV must contain at least 5 columns".
Definition msg_missing_features (missing_features : list string) : string :=
  "Missing many expected feature columns: "
    +:+ py_repr_list (take 5 missing_features) +:+ "...".
Definition msg_not_numeric : string := "Most columns should be numeric".
Definition msg_passed : string := "Data validation passed".

Definition missing_features (data : DataFrame) : list string :=
  filter (fun col => col ∉ columns data) expected_features.

Definition numeric_columns (data : DataFrame) : list string :=
  columns (filter (fun c => is_number_dtype c.2 = true) data).

Definition len {A} (l : list A) : Z := Z.of_nat (length l).

Definition validate_csv_data (data : DataFrame) : bool * string :=
  if len (columns data) <? 5 then (false, msg_too_few_columns)
  else if 20 <? len (missing_features data)
  then (false, msg_missing_features (missing_features data))
  else if F64.lt (F64.of_int (len (numeric_columns data)))
                 (F64.mul (F64.of_int (len (columns data))) F64.lit_0_8)
  then (false, msg_not_numeric)
  else (true, msg_passed).

(** ** [prepare_data_for_prediction] *)

(** DataFrames are objects: a heap maps object identities to contents. *)
Abbreviation loc := nat.
Abbreviation heap := (list DataFrame).

(** A newly created object gets an identity not in use. *)
Definition alloc (h : heap) (df : DataFrame) : heap * loc :=
  (h ++ [df], length h).

Section Prepare.

(** [pd.to_numeric] is a library function: the number a string denotes,
    if any, and the set of columns on which the call raises even with
    [errors='coerce'] are parameters. *)
Variable parse_number : string -> option float64.
Variable to_numeric_raises : list cell -> bool.

Definition coerce_cell (c : cell) : float64 :=
  match c with
  | CNum x => x
  | CStr s => match parse_number s with Some x => x | None => S754_nan end
  | CNone => S754_nan
  end.

(** [pd.to_numeric(col, errors='coerce')]; [None] when it raises.  The
    result is given as a float column (pandas stores the same numbers
    with an integer dtype when all of them are integral). *)
Definition to_numeric (s : series) : option series :=
  match s with
  | ObjSeries cs =>
      if to_numeric_raises cs then None
      else Some (FloatSeries (coerce_cell <$> cs))
  | _ => Some s
  end.

(** The broadcast scalar of [features_df[col] = 0]. *)
Definition zeros (n : nat) : series := IntSeries (replicate n 0).

(** One iteration of [for col in features_df.columns], on the frame
    bound to [features_df].  The labels are taken to be distinct, as
    [pd.read_csv] makes them: [features_df[col]] is then one column.
    (With a repeated label it is a frame, [pd.to_numeric] raises and the
    [except] branch zeroes every column of that label.) *)
Definition coerce_column (df : DataFrame) (col : string) : DataFrame :=
  match get_column col df with
  | Some s =>
      if is_numeric_dtype s then df
      else match to_numeric s with
           | Some s' => set_column col s' df
           | None => set_column col (zeros (series_len s)) df
           end
  | None => df
  end.

(** The whole loop mutates the object at [f] in place. *)
Definition coerce_loop (h : heap) (f : loc) : heap :=
  match h !! f with
  | Some df => <[f := foldl coerce_column df (columns df)]> h
  | None => h
  end.

(** Returns the new heap, the identity of the returned features frame and
    the labels.  [None]: [data] is not a live object. *)
Definition prepare_data_for_prediction (h : heap) (data : loc)
    : option (heap * loc * option series) :=
  match h !! data with
  | None => None
  | Some df =>
      let '(h1, features_df, actual_labels) :=
        if decide ("Class" ∈ columns df) then
          let '(h', f) := alloc h (drop_column "Class" df) in
          (h', f, get_column "Class" df)
        else (h, data, None) in
      let h2 := coerce_loop h1 features_df in
      match h2 !! features_df with
      | None => None
      | Some df2 =>
          let '(h3, features_df') := alloc h2 (fillna df2) in
          Some (h3, features_df', actual_labels)
      end
  end.

(** What the loop leaves in one column, and in the whole frame. *)
Definition coerce_series (s : series) : series :=
  if is_numeric_dtype s then s
  else match to_numeric s with
       | Some s' => s'
       | None => zeros (series_len s)
       end.

Definition coerce_at (name : string) (c : string * series) : string * series :=
  if decide (c.1 = name) then (c.1, coerce_series c.2) else c.

Definition coerce_all (df : DataFrame) : DataFrame :=
  (fun c => (c.1, coerce_series c.2)) <$> df.

(** The value a cell of an [object] column has in the returned features:
    the coerced number, or 0 when coercion failed. *)
Definition prepared_cell (c : cell) : float64 :=
  if F64.is_nan (coerce_cell c) then F64.zero else coerce_cell c.

End Prepare.

(** ** [generate_summary_report] *)

Definition nl : string := String (ascii_of_nat 10) EmptyString.

(** The sentences appended under "Risk Assessment:", one [report += ...]
    each. *)
Definition risk_assessment (level : risk_level_t) : list string :=
  match level with
  | HIGH =>
      [ "- HIGH RISK: Fraud rate is above 5%. Immediate attention required." +:+ nl;
        "- Consider implementing additional security measures." +:+ nl;
        "- Review recent system changes and access patterns." +:+ nl ]
  | MEDIUM =>
      [ "- MEDIUM RISK: Fraud rate is between 2-5%. Monitor closely." +:+ nl;
        "- Review suspicious transactions manually." +:+ nl;
        "- Consider increasing monitoring frequency." +:+ nl ]
  | LOW =>
      [ "- LOW RISK: Fraud rate is below 2%. Normal operations." +:+ nl;
        "- Continue with current security protocols." +:+ nl ]
  end.

Section Report.

(** String formatting is the Python runtime's: [format_fixed d x] is
    [f"{x:.<d>f}"], [format_thousands n] is [f"{n:,}"], and [now] is the
    formatted current time. *)
Variable format_fixed : nat -> float64 -> string.
Variable format_thousands : Z -> string.
Variable now : string.

Definition report_head (m : metrics) (model_path : string) : string :=
  nl +:+ "Fraud Detection Report" +:+ nl
  +:+ "Generated: " +:+ now +:+ nl
  +:+ nl
  +:+ "Summary:" +:+ nl
  +:+ "- Total Transactions: " +:+ format_thousands (total_transactions m) +:+ nl
  +:+ "- Legitimate Transactions: " +:+ format_thousands (legitimate_count m) +:+ nl
  +:+ "- Fraudulent Transactions: " +:+ format_thousands (fraud_count m) +:+ nl
  +:+ "- Fraud Rate: " +:+ format_fixed 2 (fraud_rate m) +:+ "%" +:+ nl
  +:+ "- Risk Level: " +:+ risk_level_str (risk_level m) +:+ " " +:+ risk_icon m +:+ nl
  +:+ nl
  +:+ "Model Used: " +:+ model_path +:+ nl
  +:+ nl
  +:+ "Risk Assessment:" +:+ nl.

Definition probability_analysis (st : prob_stats) : list string :=
  [ nl +:+ "Probability Analysis:" +:+ nl;
    "- Average Fraud Probability: " +:+ format_fixed 3 (avg_fraud_probability st) +:+ nl;
    "- Maximum Fraud Probability: " +:+ format_fixed 3 (max_fraud_probability st) +:+ nl;
    "- Minimum Fraud Probability: " +:+ format_fixed 3 (min_fraud_probability st) +:+ nl ].

Definition generate_summary_report (m : metrics) (model_path : string) : string :=
  let report := report_head m model_path in
  let report := foldl String.append report (risk_assessment (risk_level m)) in
  match probability m with
  | Some st => foldl String.append report (probability_analysis st)
  | None => report
  end.

End Report.

(** ** CSV text *)

Module Csv.

Definition comma : ascii := ",".
Definition quote : ascii := ascii_of_nat 34.
Definition LF : ascii := ascii_of_nat 10.
Definition CR : ascii := ascii_of_nat 13.

(** The characters that make the writer quote a field: the delimiter,
    the quote character and the characters of the line terminator.
    [to_csv] passes [os.linesep] as line terminator, a line feed on
    POSIX systems, so a carriage return is not among them. *)
Definition special (c : ascii) : bool :=
  bool_decide (c = comma) || bool_decide (c = quote) || bool_decide (c = LF).

(** [QUOTE_MINIMAL] with [doublequote]: a field is quoted when it holds a
    delimiter, a quote or a line feed. *)
Definition needs_quotes (field : list ascii) : bool := existsb special field.

Fixpoint escape (field : list ascii) : list ascii :=
  match field with
  | [] => []
  | c :: rest => if decide (c = quote) then quote :: quote :: escape rest
                 else c :: escape rest
  end.

Definition write_field (field : list ascii) : list ascii :=
  if needs_quotes field then quote :: escape field ++ [quote] else field.

Fixpoint join_fields (fields : list (list ascii)) : list ascii :=
  match fields with
  | [] => []
  | [f] => write_field f
  | f :: rest => write_field f ++ comma :: join_fields rest
  end.

(** A record with a single empty field is written as a pair of quotes. *)
Definition write_row (fields : list (list ascii)) : list ascii :=
  match fields with
  | [[]] => [quote; quote; LF]
  | _ => join_fields fields ++ [LF]
  end.

Definition write (rows : list (list (list ascii))) : list ascii :=
  concat (write_row <$> rows).

(** The reader, [csv.reader] in its default dialect over a text opened
    with [newline=''], as a state machine over the characters.  Outside
    a quoted field a line feed, a carriage return, or the pair of them
    ends the record; an empty line is an empty record; after a closing
    quote any other character goes on with the field; an input that ends
    inside a quoted field gives the record read so far. *)
Inductive state :=
| StartRecord      (* nothing read of the current record *)
| AfterCR          (* as [StartRecord], just after a carriage return *)
| StartField       (* just after a delimiter *)
| InField          (* inside an unquoted field *)
| InQuoted         (* inside a quoted field *)
| QuoteInQuoted.   (* just after a quote inside a quoted field *)

(** [field] and [row] are accumulated in reverse. *)
Fixpoint read_from (st : state) (field : list ascii) (row : list (list ascii))
    (input : list ascii) : option (list (list (list ascii))) :=
  let end_field := rev field :: row in
  match input with
  | [] =>
      match st with
      | StartRecord | AfterCR => Some []
      | _ => Some [rev end_field]
      end
  | c :: rest =>
      match st with
      | StartRecord | AfterCR | StartField =>
          if decide (c = LF) then
            match st with
            | AfterCR => read_from StartRecord [] [] rest
            | StartRecord => cons [] <$> read_from StartRecord [] [] rest
            | _ => cons (rev (rev [] :: row)) <$> read_from StartRecord [] [] rest
            end
          else if decide (c = CR) then
            match st with
            | StartField => cons (rev (rev [] :: row)) <$> read_from AfterCR [] [] rest
            | _ => cons [] <$> read_from AfterCR [] [] rest
            end
          else if decide (c = quote) then read_from InQuoted [] row rest
          else if decide (c = comma) then read_from StartField [] (rev [] :: row) rest
          else read_from InField [c] row rest
      | InField =>
          if decide (c = comma) then read_from StartField [] end_field rest
          else if decide (c = LF) then
            cons (rev end_field) <$> read_from StartRecord [] [] rest
          else if decide (c = CR) then
            cons (rev end_field) <$> read_from AfterCR [] [] rest
          else read_from InField (c :: field) row rest
      | InQuoted =>
          if decide (c = quote) then read_from QuoteInQuoted field row rest
          else read_from InQuoted (c :: field) row rest
      | QuoteInQuoted =>
          if decide (c = quote) then read_from InQuoted (c :: field) row rest
          else if decide (c = comma) then read_from StartField [] end_field rest
          else if decide (c = LF) then
            cons (rev end_field) <$> read_from StartRecord [] [] rest
          else if decide (c = CR) then
            cons (rev end_field) <$> read_from AfterCR [] [] rest
          else read_from InField (c :: field) row rest
      end
  end.

Definition read (input : list ascii) : option (list (list (list ascii))) :=
  read_from StartRecord [] [] input.

(** The states in which the reader expects a field to begin. *)
Definition at_start (st : state) : Prop := st = StartRecord \/ st = StartField.

(** A field the reader gives back as the writer got it: one that is
    written in quotes, or holds no carriage return. *)
Definition reads_back (field : list ascii) : bool :=
  needs_quotes field || negb (existsb (fun c => bool_decide (c = CR)) field).

End Csv.

(** ** The result artifact: [to_csv] of the augmented table *)

Definition label_legitimate : string := "Legitimate".
Definition label_fraudulent : string := "Fraudulent".

(** [Series.map({0: 'Legitimate', 1: 'Fraudulent'})] on one entry; a key
    absent from the dictionary maps to a missing value. *)
Definition prediction_label (p : Z) : cell :=
  if p =? 0 then CStr label_legitimate
  else if p =? 1 then CStr label_fraudulent
  else CNone.

Section ToCsv.

(** The text [to_csv] writes for a float that is not NaN. *)
Variable render_float : float64 -> string.

Definition render_num (x : float64) : string :=
  if F64.is_nan x then "" else render_float x.

Definition render_cell (c : cell) : string :=
  match c with
  | CStr s => s
  | CNum x => render_num x
  | CNone => ""
  end.

Definition render_series (s : series) : list string :=
  match s with
  | IntSeries zs => pretty <$> zs
  | FloatSeries xs => render_num <$> xs
  | BoolSeries bs => (fun b : bool => if b then "True" else "False") <$> bs
  | ObjSeries cs => render_cell <$> cs
  end.

Definition field_of (s : string) : list ascii := String.list_ascii_of_string s.

Definition csv_header (df : DataFrame) : list (list ascii) :=
  field_of <$> columns df.

Definition csv_row (df : DataFrame) (i : nat) : list (list ascii) :=
  (fun c => field_of (default "" (render_series c.2 !! i))) <$> df.

(** [df.to_csv(index=False)] *)
Definition to_csv (df : DataFrame) : string :=
  String.string_of_list_ascii
    (Csv.write (csv_header df :: (csv_row df <$> seq 0 (nrows df)))).

(** [str.encode("utf-8")]: strings are kept as their UTF-8 bytes. *)
Definition encode_utf8 (s : string) : bytes := String.list_ascii_of_string s.

(** [df[name] = values] for an array: [ValueError] ([None]) unless the
    length matches the index. *)
Definition assign_array (name : string) (s : series) (df : DataFrame)
    : option DataFrame :=
  if decide (series_len s = nrows df) then Some (set_column name s df) else None.

(** Lines 134-140 of [predict]: the augmented table and its bytes. *)
Definition build_results (df : DataFrame) (predictions : list Z)
    (proba : option (list float64)) : option DataFrame :=
  let results_df := df in
  results_df ← assign_array "Fraud Prediction" (IntSeries predictions) results_df;
  let results_df :=
    set_column "Fraud Prediction" (ObjSeries (prediction_label <$> predictions))
               results_df in
  match proba with
  | Some ps => assign_array "Fraud Probability" (FloatSeries ps) results_df
  | None => Some results_df
  end.

Definition encode_results (df : DataFrame) (predictions : list Z)
    (proba : option (list float64)) : option bytes :=
  results_df ← build_results df predictions proba;
  Some (encode_utf8 (to_csv results_df)).

End ToCsv.

(** Re-parsing the artifact: the records of the CSV text and the column
    under a given header. *)
Definition parse_csv (data : bytes) : option (list (list string)) :=
  match Csv.read data with
  | Some rows => Some (map (map String.string_of_list_ascii) rows)
  | None => None
  end.

Fixpoint index_of (name : string) (header : list string) : option nat :=
  match header with
  | [] => None
  | h :: rest => if decide (h = name) then Some 0%nat
                 else S <$> index_of name rest
  end.

Definition csv_column (name : string) (table : list (list string))
    : option (list string) :=
  match table with
  | [] => None
  | header :: rows =>
      match index_of name header with
      | Some i => mapM (fun r : list string => r !! i) rows
      | None => None
      end
  end.

(** A string the CSV reader gives back as it was written. *)
Definition csv_safe (s : string) : Prop := Csv.reads_back (field_of s) = true.

(** A table whose labels and written cells are all given back by the
    reader: none holds a carriage return unless it is written in quotes. *)
Definition csv_safe_table (render_float : float64 -> string) (df : DataFrame) : Prop :=
  Forall (fun c => csv_safe c.1 /\ Forall csv_safe (render_series render_float c.2)) df.

(** ** The request handlers of [flask_app.py] *)

Record upload := { filename : string; stream : bytes }.

(** The classifier: [predict] returns the labels or raises (the message
    of the exception); [predict_proba] may be absent, and when present
    yields the second column of a usable probability matrix or nothing
    (it raised, or the result had the wrong shape). *)
Record model := {
  model_predict : DataFrame -> string + list Z;
  model_predict_proba : option (DataFrame -> option (list float64))
}.

Inductive chart := ProbabilityHistogram | CountBars.

Record results_page := {
  page_metrics : metrics;
  row_count : Z;
  download_token : string;
  page_model_path : option string;
  summary : string;
  right_chart : chart
}.

Inductive response :=
| Redirect (category message : string)
    (* flash(message, category); redirect(url_for("analyze")) *)
| Rendered (page : results_page)
| SendFile (data : bytes)
| Uncaught.
    (* an exception left the handler *)

Definition msg_expired : string :=
  "Your download link has expired. Please re-run the analysis.".

(** [download(token)] on [RESULTS_STORE]. *)
Definition download (store : gmap string bytes) (token : string)
    : response * gmap string bytes :=
  match store !! token with
  | Some ((_ :: _) as data) => (SendFile data, delete token store)
  | _ => (Redirect "warning" msg_expired, store)
  end.

(** Every stored artifact holds at least one byte. *)
Definition artifacts_nonempty (store : gmap string bytes) : Prop :=
  forall token data, store !! token = Some data -> data <> [].

Section Predict.

Variable parse_number : string -> option float64.
Variable to_numeric_raises : list cell -> bool.
Variable np_mean np_max np_min : list float64 -> float64.
Variable format_fixed : nat -> float64 -> string.
Variable format_thousands : Z -> string.
Variable now : string.
Variable render_float : float64 -> string.

(** [pd.read_csv]: the table or the message of the exception. *)
Variable read_csv : bytes -> string + DataFrame.

(** Module globals set at start-up. *)
Variable MODEL : option model.
Variable MODEL_PATH : option string.

Definition run_model (m : model) (features_df : DataFrame)
    : string + (list Z * option (list float64)) :=
  match model_predict m features_df with
  | inl e => inl e
  | inr predictions =>
      let proba :=
        match model_predict_proba m with
        | Some predict_proba => predict_proba features_df
        | None => None
        end in
      inr (predictions, proba)
  end.

(** [predict()]: [files] is [request.files], [token] the value drawn by
    [secrets.token_urlsafe(16)].  Building the figures and rendering the
    template, after the store has been written, are taken to succeed. *)
Definition predict (store : gmap string bytes) (files : gmap string upload)
    (token : string) : response * gmap string bytes :=
  match files !! "file" with
  | None => (Redirect "danger" "No file part in request", store)
  | Some file =>
  if decide (filename file = "") then (Redirect "warning" "No file selected", store)
  else
  match MODEL with
  | None =>
      (Redirect "danger" "Model not available. Please add a trained model file.", store)
  | Some m =>
  match read_csv (stream file) with
  | inl e => (Redirect "danger" ("Failed to read CSV: " +:+ e), store)
  | inr df0 =>
  let '(is_valid, error_message) := validate_csv_data df0 in
  if negb is_valid
  then (Redirect "danger" ("Data validation failed: " +:+ error_message), store)
  else
  (* [df] is object 0 of the request's heap *)
  match prepare_data_for_prediction parse_number to_numeric_raises [df0] 0%nat with
  | None => (Uncaught, store)
  | Some (h, features_df, actual_labels) =>
  match h !! features_df, h !! 0%nat with
  | Some features, Some df =>
  match run_model m features with
  | inl e => (Redirect "danger" ("Model prediction failed: " +:+ e), store)
  | inr (predictions, proba) =>
  match calculate_risk_metrics np_mean np_max np_min predictions proba with
  | None => (Uncaught, store)
  | Some metrics =>
  match build_results df predictions proba with
  | None => (Uncaught, store)
  | Some results_df =>
      let csv_bytes := encode_utf8 (to_csv render_float results_df) in
      let store := <[token := csv_bytes]> store in
      let summary :=
        generate_summary_report format_fixed format_thousands now metrics
          (default "Unknown" MODEL_PATH) in
      let right :=
        match proba with Some _ => ProbabilityHistogram | None => CountBars end in
      (Rendered {| page_metrics := metrics;
                   row_count := Z.of_nat (nrows results_df);
                   download_token := token;
                   page_model_path := MODEL_PATH;
                   summary := summary;
                   right_chart := right |}, store)
  end end end
  | _, _ => (Uncaught, store)
  end end end end end.

(** The states [RESULTS_STORE] can be in: it starts empty and only the
    two handlers change it. *)
Inductive reachable : gmap string bytes -> Prop :=
| reachable_init : reachable ∅
| reachable_predict store files token :
    reachable store -> reachable (predict store files token).2
| reachable_download store token :
    reachable store -> reachable (download store token).2.

End Predict.

(** ** Example inputs *)

(** A table with a missing number, a text column and labels. *)
Definition example_table : DataFrame :=
  [ ("V1", FloatSeries [S754_nan; F64.of_int 3]);
    ("note", ObjSeries [CStr "n/a"; CNone]);
    ("Class", IntSeries [0; 1]) ].

(** A table without the 'Class' column. *)
Definition example_no_class : DataFrame :=
  [ ("V1", IntSeries [1; 2]);
    ("note", ObjSeries [CStr "n/a"; CNum (F64.of_int 7)]) ].

(** A low-risk record without probability statistics. *)
Definition low_risk_metrics : metrics :=
  {| total_transactions := 100; legitimate_count := 99; fraud_count := 1;
     fraud_rate := F64.of_int 1; risk_level := LOW; risk_icon := icon_low;
     probability := None |}.

(** An upload that passes validation: nine canonical features. *)
Definition example_upload_table : DataFrame :=
  (fun i : nat => ("V" +:+ pretty i, IntSeries [Z.of_nat i; 0])) <$> seq 1 9.


(** An upload that already has a column called "Fraud Prediction". *)
Definition example_relabelled : DataFrame :=
  [ ("V1", IntSeries [1; 2]);
    ("Fraud Prediction", ObjSeries [CStr "old"; CStr "old"]);
    ("Amount", FloatSeries [F64.of_int 10; F64.of_int 20]) ].

(** A classifier that flags every row and has no [predict_proba]. *)
Definition example_model : model :=
  {| model_predict := fun df => inr (replicate (nrows df) 1);
     model_predict_proba := None |}.

(** The store after one successful prediction request. *)
Definition example_store : gmap string bytes :=
  (predict (fun _ => None) (fun _ => false)
     (fun _ => F64.zero) (fun _ => F64.zero) (fun _ => F64.zero)
     (fun _ _ => "0.00") (fun _ => "0") "2024-01-01 00:00:00" (fun _ => "0.0")
     (fun _ => inr example_upload_table) (Some example_model) (Some "model.pkl")
     ∅ {["file" := {| filename := "upload.csv"; stream := [] |}]} "token-1").2.

(** ** The schema a table is validated against *)

(** The label of each column and whether its dtype is selected as a
    number: all that [validate_csv_data] reads of a table. *)
Definition schema (df : DataFrame) : list (string * bool) :=
  (fun c => (c.1, is_number_dtype c.2)) <$> df.

(** A column without missing values whose dtype is numeric. *)
Definition clean_series (s : series) : Prop :=
  is_numeric_dtype s = true /\ has_missing s = false.

(** ** An example deployment *)

Definition example_files : gmap string upload :=
  {["file" := {| filename := "upload.csv"; stream := [] |}]}.

(** [predict] where every upload parses as [example_upload_table]. *)
Definition example_predict (MODEL : option model) (store : gmap string bytes)
    (token : string) : response * gmap string bytes :=
  predict (fun _ => None) (fun _ => false)
    (fun _ => F64.zero) (fun _ => F64.zero) (fun _ => F64.zero)
    (fun _ _ => "0.00") (fun _ => "0") "2024-01-01 00:00:00" (fun _ => "0.0")
    (fun _ => inr example_upload_table) MODEL (Some "model.pkl")
    store example_files token.

(** A classifier that answers with a single label whatever the table. *)
Definition example_short_model : model :=
  {| model_predict := fun _ => inr [1];
     model_predict_proba := None |}.

(** ** [load_model_with_fallback] *)

(** What [joblib.load] can return: an object with a [predict] attribute,
    which the handlers then use as the classifier, or any other object. *)
Inductive loaded_object :=
| WithPredict (m : model)
| WithoutPredict.

Section LoadModel.

(** The file system at start-up.  [Path.exists] answers or raises
    ([None]); [joblib.load] returns the unpickled object or raises
    ([None]). *)
Variable path_exists : string -> option bool.
Variable joblib_load : string -> option loaded_object.

(** The body of the loop for one path: the pair it returns, or [None]
    when the loop goes on (the file is missing, the object has no
    [predict], or an exception was swallowed by [except Exception]). *)
Definition try_path (path : string) : option (model * string) :=
  match path_exists path with
  | Some true =>
      match joblib_load path with
      | Some (WithPredict m) => Some (m, path)
      | Some WithoutPredict => None
      | None => None
      end
  | Some false => None
  | None => None
  end.

Fixpoint load_model_with_fallback (MODEL_PATHS : list string)
    : option model * option string :=
  match MODEL_PATHS with
  | [] => (None, None)
  | path :: rest =>
      match try_path path with
      | Some (m, p) => (Some m, Some p)
      | None => load_model_with_fallback rest
      end
  end.

(** The file at [path] holds a classifier the loop accepts. *)
Definition usable_model (path : string) (m : model) : Prop :=
  path_exists path = Some true /\ joblib_load path = Some (WithPredict m).

End LoadModel.

(** ** [create_prediction_visualizations] *)

(** The data of a Plotly figure; layout and colours are left out. *)
Inductive figure :=
| PieChart (values : list Z) (names : list string) (title : string)
| HistogramChart (x : list float64) (nbins : Z) (title : string)
| BarChart (x : list string) (y : list Z) (title : string).

Definition create_prediction_visualizations (m : metrics)
    (probabilities : option (list float64)) : gmap string figure :=
  let figures : gmap string figure := ∅ in
  let figures :=
    <["distribution" :=
        PieChart [legitimate_count m; fraud_count m]
          ["Legitimate"; "Fraudulent"] "Transaction Distribution"]> figures in
  let figures :=
    match probabilities with
    | Some probabilities =>
        <["probabilities" :=
            HistogramChart probabilities 20 "Fraud Probability Distribution"]> figures
    | None => figures
    end in
  <["counts" :=
      BarChart ["Legitimate"; "Fraudulent"]
        [legitimate_count m; fraud_count m] "Transaction Counts"]> figures.

(** The figures [predict] renders into the page, [figures["distribution"]]
    and the right-hand one; [None] is a [KeyError]. *)
Definition page_figures (figures : gmap string figure) : option (figure * figure) :=
  dist ← figures !! "distribution";
  right_fig ←
    (if decide (is_Some (figures !! "probabilities"))
     then figures !! "probabilities"
     else figures !! "counts");
  Some (dist, right_fig).

(** The panel a figure is drawn as on the results page. *)
Definition chart_of (fig : figure) : option chart :=
  match fig with
  | HistogramChart _ _ _ => Some ProbabilityHistogram
  | BarChart _ _ _ => Some CountBars
  | PieChart _ _ _ => None
  end.

(** ** [format_file_size] *)

(** [size_bytes] starts as an [int] and is a [float] after the first
    division. *)
Inductive number := PyInt (z : Z) | PyFloat (f : float64).

Definition size_names : list string := ["B"; "KB"; "MB"; "GB"].

(** The literal [1024.0]. *)
Definition lit_1024 : float64 := S754_finite false 4503599627370496 (-42).

(** [float(z)], which raises [OverflowError] when the integer rounds
    beyond the largest double. *)
Definition float_of_int (z : Z) : option float64 :=
  match F64.of_int z with
  | S754_infinity _ => None
  | f => Some f
  end.

(** [size_bytes >= 1024]: Python compares an int with an int, and a
    float with the exactly representable 1024, without rounding. *)
Definition ge_1024 (size_bytes : number) : bool :=
  match size_bytes with
  | PyInt z => 1024 <=? z
  | PyFloat f => F64.le lit_1024 f
  end.

(** [size_bytes / 1024.0] *)
Definition div_1024 (size_bytes : number) : option float64 :=
  match size_bytes with
  | PyInt z => (fun f => F64.div f lit_1024) <$> float_of_int z
  | PyFloat f => Some (F64.div f lit_1024)
  end.

(** The [while] loop.  [turns] is [len(size_names) - 1 - i], the number
    of turns the test [i < len(size_names) - 1] still allows. *)
Fixpoint scale_size (turns : nat) (size_bytes : number) (i : nat)
    : option (number * nat) :=
  match turns with
  | O => Some (size_bytes, i)
  | S turns =>
      if ge_1024 size_bytes then
        match div_1024 size_bytes with
        | Some f => scale_size turns (PyFloat f) (S i)
        | None => None
        end
      else Some (size_bytes, i)
  end.

Section FormatFileSize.

(** [f"{x:.1f}"] of a float. *)
Variable format_1f : float64 -> string.

(** [f"{size_bytes:.1f}"]: an int is converted to a float first. *)
Definition format_number (size_bytes : number) : option string :=
  match size_bytes with
  | PyInt z => format_1f <$> float_of_int z
  | PyFloat f => Some (format_1f f)
  end.

(** [None] is an exception ([OverflowError], [IndexError]). *)
Definition format_file_size (size_bytes : Z) : option string :=
  if size_bytes =? 0 then Some "0B"
  else
    match scale_size (length size_names - 1) (PyInt size_bytes) 0 with
    | Some (size_bytes, i) =>
        match format_number size_bytes, size_names !! i with
        | Some digits, Some name => Some (digits +:+ " " +:+ name)
        | _, _ => None
        end
    | None => None
    end.

End FormatFileSize.

(** The double with the sign and mantissa of [x] and its exponent
    lowered by [k]: [x / 2^k] when [x] is finite. *)
Definition shift_exponent (x : float64) (k : Z) : float64 :=
  match x with
  | S754_finite s m e => S754_finite s m (e - k)
  | _ => x
  end.

(** The index in [size_names] of the unit of a positive size. *)
Definition unit_index (n : Z) : nat :=
  if n <? 2 ^ 10 then 0 else if n <? 2 ^ 20 then 1 else if n <? 2 ^ 30 then 2 else 3.

(** ** An example start-up *)

Definition example_paths : list string :=
  ["models/random_forest_fraud.pkl"; "models/logistic_regression_fraud.pkl";
   "model.pkl"].

(** Only [model.pkl] exists. *)
Definition example_exists (path : string) : option bool :=
  Some (bool_decide (path = "model.pkl")).

Definition example_load (path : string) : option loaded_object :=
  Some (WithPredict example_model).

(** * Proofs *)

(** ** Rounding of binary64 operations *)

Module F64Facts.

Lemma digits2_pos_size p : digits2_pos p = Pos.size p.
Proof. induction p; simpl; congruence. Qed.

Lemma Zdigits2_log2 z : 0 < z -> Zdigits2 z = Z.log2 z + 1.
Proof.
  destruct z as [|p|p]; try lia. intros _. simpl. rewrite digits2_pos_size.
  destruct p; simpl; lia.
Qed.

Lemma Zdigits2_bounds z :
  0 < z -> 2 ^ (Zdigits2 z - 1) <= z < 2 ^ Zdigits2 z.
Proof.
  intros Hz. rewrite Zdigits2_log2 by done.
  replace (Z.log2 z + 1 - 1) with (Z.log2 z) by lia.
  replace (Z.log2 z + 1) with (Z.succ (Z.log2 z)) by lia.
  by apply Z.log2_spec.
Qed.

Lemma Zdigits2_unique z k :
  2 ^ (k - 1) <= z < 2 ^ k -> 0 < k -> Zdigits2 z = k.
Proof.
  intros Hb Hk.
  assert (0 < z) by (pose proof (Z.pow_pos_nonneg 2 (k - 1)); lia).
  rewrite Zdigits2_log2 by done.
  rewrite (Z.log2_unique z (k - 1)); [lia | lia |].
  by replace (Z.succ (k - 1)) with k by lia.
Qed.

(** Shifting right bit by bit keeps track of the discarded bits. *)
Lemma shifted_init M : 0 <= M -> shifted M 0 (shr_record_of_loc M loc_Exact).
Proof. intros HM. split; [done|]. exists 0. simpl. split; [lia | done]. Qed.

Lemma shifted_step M n mrs :
  0 <= n -> shifted M n mrs -> shifted M (n + 1) (shr_1 mrs).
Proof.
  intros Hn [Hm (rest & HM & Hloc)].
  assert (Hp : 2 ^ (n + 1) = 2 * 2 ^ n) by (rewrite Z.pow_add_r; lia).
  assert (0 < 2 ^ n) by (apply Z.pow_pos_nonneg; lia).
  destruct mrs as [m r s]. simpl in *. unfold shifted. rewrite Hp.
  destruct m as [|p|p]; [| |lia].
  - split; [simpl; lia|]. exists rest.
    destruct r, s; simpl; lia.
  - destruct p as [p|p|]; simpl; (split; [lia|]).
    + exists (2 ^ n + rest). rewrite Pos2Z.inj_xI in HM.
      destruct r, s; simpl; lia.
    + exists rest. rewrite Pos2Z.inj_xO in HM.
      destruct r, s; simpl; lia.
    + exists (2 ^ n + rest). destruct r, s; simpl; lia.
Qed.

Lemma shifted_iter p M n mrs :
  0 <= n -> shifted M n mrs -> shifted M (n + Zpos p) (SpecFloat.iter_pos shr_1 p mrs).
Proof.
  revert n mrs. induction p as [p IH|p IH|]; intros n mrs Hn H; simpl.
  - rewrite Pos2Z.inj_xI.
    replace (n + (2 * Z.pos p + 1)) with (n + 1 + Z.pos p + Z.pos p) by lia.
    apply IH; [lia|]. apply IH; [lia|]. by apply shifted_step.
  - rewrite Pos2Z.inj_xO.
    replace (n + 2 * Z.pos p) with (n + Z.pos p + Z.pos p) by lia.
    apply IH; [lia|]. by apply IH.
  - by apply shifted_step.
Qed.

(** Rounding to nearest even moves the mantissa by at most half a unit. *)
Lemma shifted_round M n mrs :
  0 <= n -> shifted M n mrs ->
  let R := round_nearest_even (shr_m mrs) (loc_of_shr_record mrs) in
  shr_m mrs <= R <= shr_m mrs + 1 /\
  shr_m mrs * 2 ^ n <= M < (shr_m mrs + 1) * 2 ^ n /\
  2 * Z.abs (R * 2 ^ n - M) <= 2 ^ n.
Proof.
  intros Hn [Hm (rest & HM & Hloc)].
  assert (0 < 2 ^ n) by (apply Z.pow_pos_nonneg; lia).
  destruct mrs as [m r s]. simpl in *.
  destruct r, s; simpl; try destruct (Z.even m); lia.
Qed.

Lemma shr_fexp_exact mx ex :
  0 < mx -> 53 <= Zdigits2 mx -> -1074 <= Zdigits2 mx + ex - 53 ->
  exists mrs,
    shr_fexp 53 1024 mx ex loc_Exact = (mrs, ex + (Zdigits2 mx - 53)) /\
    shifted mx (Zdigits2 mx - 53) mrs.
Proof.
  intros Hmx Hd He. unfold shr_fexp, fexp, emin.
  rewrite Z.max_l by lia.
  replace (Zdigits2 mx + ex - 53 - ex) with (Zdigits2 mx - 53) by lia.
  pose proof (shifted_init mx ltac:(lia)) as Hinit.
  unfold shr. destruct (Zdigits2 mx - 53) as [|p|p] eqn:Hn; [| |lia].
  - eexists. split; [f_equal; lia | done].
  - eexists. split; [reflexivity|].
    by apply (shifted_iter p mx 0) in Hinit.
Qed.

Lemma shifted_0 M mrs : shifted M 0 mrs -> shr_m mrs = M.
Proof.
  intros [Hm (rest & HM & Hloc)]. destruct mrs as [m r s]; simpl in *.
  destruct r, s; lia.
Qed.

(** Rounding a positive integer mantissa of at least 53 bits in the
    normal range: the result is finite, normalised, and within half a
    unit in the last place of the exact value. *)
Lemma binary_round_aux_normal sx mx ex :
  0 < mx -> 53 <= Zdigits2 mx ->
  -1074 <= Zdigits2 mx + ex - 53 -> Zdigits2 mx + ex <= 1023 ->
  exists m e,
    binary_round_aux 53 1024 sx mx ex loc_Exact = S754_finite sx m e /\
    2 ^ 52 <= Zpos m < 2 ^ 53 /\
    2 * Z.abs (Zpos m * 2 ^ (e - ex) - mx) <= 2 ^ (Zdigits2 mx - 53) /\
    (e = ex + Zdigits2 mx - 53 \/ (e = ex + Zdigits2 mx - 52 /\ Zpos m = 2 ^ 52)).
Proof.
  intros Hmx Hd Hlo Hhi.
  destruct (shr_fexp_exact mx ex Hmx Hd Hlo) as (mrs & Hshr & Hsh).
  unfold binary_round_aux. rewrite Hshr.
  set (n := Zdigits2 mx - 53) in *.
  assert (Hn : 0 <= n) by lia.
  destruct (shifted_round mx n mrs Hn Hsh) as (HR & Hq & Habs).
  set (R := round_nearest_even (shr_m mrs) (loc_of_shr_record mrs)) in *.
  pose proof (Zdigits2_bounds mx Hmx) as Hb.
  assert (Hpn : 0 < 2 ^ n) by (apply Z.pow_pos_nonneg; lia).
  assert (Hp1 : 2 ^ (Zdigits2 mx - 1) = 2 ^ 52 * 2 ^ n).
  { rewrite <- Z.pow_add_r by lia. f_equal. lia. }
  assert (Hp2 : 2 ^ Zdigits2 mx = 2 ^ 53 * 2 ^ n).
  { rewrite <- Z.pow_add_r by lia. f_equal. lia. }
  rewrite Hp1, Hp2 in Hb.
  assert (Hm : 2 ^ 52 <= shr_m mrs < 2 ^ 53) by nia.
  destruct (Z_lt_le_dec R (2 ^ 53)) as [Hlt|Hge].
  - assert (HdR : Zdigits2 R = 53) by (apply Zdigits2_unique; lia).
    destruct (shr_fexp_exact R (ex + n)) as (mrs2 & Hshr2 & Hsh2); [lia..|].
    rewrite Hshr2, HdR in *. apply shifted_0 in Hsh2. rewrite Hsh2.
    destruct R as [|m|m] eqn:HeqR; [lia| |lia].
    exists m, (ex + n + (53 - 53)). split.
    { replace (ex + n + (53 - 53) <=? 1024 - 53) with true; [done|]. symmetry. apply Z.leb_le. lia. }
    split; [lia|]. split; [|lia].
    replace (ex + n + (53 - 53) - ex) with n by lia. lia.
  - assert (HeqR : R = 2 ^ 53) by lia.
    assert (HdR : Zdigits2 R = 54) by (rewrite HeqR; reflexivity).
    destruct (shr_fexp_exact R (ex + n)) as (mrs2 & Hshr2 & Hsh2); [lia..|].
    rewrite Hshr2, HdR in *.
    assert (Hm2 : shr_m mrs2 = 2 ^ 52).
    { destruct Hsh2 as [Hm2 (rest & HM & Hloc)]. destruct mrs2 as [m2 r2 s2]; simpl in *.
      change (2 ^ (54 - 53)) with 2 in *. destruct r2, s2; lia. }
    rewrite Hm2. change (2 ^ 52) with (Z.pos (2 ^ 52)%positive) at 1.
    cbv iota. exists (2 ^ 52)%positive, (ex + n + (54 - 53)). split.
    { replace (ex + n + (54 - 53) <=? 1024 - 53) with true; [done|]. symmetry. apply Z.leb_le. lia. }
    split; [done|]. split; [|right; split; [lia|done]].
    replace (ex + n + (54 - 53) - ex) with (n + 1) by lia.
    rewrite Z.pow_add_r by lia. change (Z.pos (2 ^ 52)) with (2 ^ 52). lia.
Qed.

Lemma shr_1_nonneg mrs : 0 <= shr_m mrs -> 0 <= shr_m (shr_1 mrs).
Proof. destruct mrs as [[|[p|p|]|p] r s]; simpl; lia. Qed.

Lemma iter_shr_1_nonneg p mrs :
  0 <= shr_m mrs -> 0 <= shr_m (SpecFloat.iter_pos shr_1 p mrs).
Proof.
  revert mrs. induction p as [p IH|p IH|]; intros mrs H; simpl;
    auto using shr_1_nonneg.
Qed.

Lemma shr_fexp_nonneg m e l :
  0 <= m -> 0 <= shr_m (shr_fexp 53 1024 m e l).1.
Proof.
  intros Hm. unfold shr_fexp, shr.
  assert (0 <= shr_m (shr_record_of_loc m l)) by (by destruct l as [|[]]).
  destruct (_ - e); simpl; auto using iter_shr_1_nonneg.
Qed.

Lemma round_nearest_even_nonneg m l : 0 <= m -> 0 <= round_nearest_even m l.
Proof. intros Hm. destruct l as [|[]]; simpl; try destruct (Z.even m); lia. Qed.

(** Rounding a non-negative mantissa never produces NaN. *)
Lemma binary_round_aux_not_nan sx mx ex lx :
  0 <= mx -> binary_round_aux 53 1024 sx mx ex lx <> S754_nan.
Proof.
  intros Hmx. unfold binary_round_aux.
  pose proof (shr_fexp_nonneg mx ex lx Hmx) as H1.
  destruct (shr_fexp 53 1024 mx ex lx) as [mrs' e']. simpl in H1.
  pose proof (shr_fexp_nonneg _ e' loc_Exact
    (round_nearest_even_nonneg _ (loc_of_shr_record mrs') H1)) as H2.
  destruct (shr_fexp 53 1024 _ e' loc_Exact) as [mrs'' e'']. simpl in H2.
  destruct (shr_m mrs''); [done| |lia].
  by destruct (_ <=? _).
Qed.

Lemma pos_iter_xO p q : Zpos (Pos.iter xO p q) = Zpos p * 2 ^ Zpos q.
Proof.
  rewrite <- Z.shiftl_mul_pow2 by lia. simpl.
  by apply (Pos.iter_swap_gen _ _ Zpos xO (Z.mul 2)).
Qed.

(** A positive integer below [2^53] converts exactly. *)
Lemma of_int_exact z :
  0 < z < 2 ^ 53 ->
  exists m e, F64.of_int z = S754_finite false m e /\
    2 ^ 52 <= Zpos m < 2 ^ 53 /\ -52 <= e <= 0 /\ Zpos m = z * 2 ^ (- e).
Proof.
  intros Hz. destruct z as [|p|p]; [lia| |lia].
  pose proof (Zdigits2_bounds (Zpos p) ltac:(lia)) as Hb.
  assert (Hd : 1 <= Zdigits2 (Zpos p) <= 53).
  { split; [simpl; lia|].
    destruct (Z_le_gt_dec (Zdigits2 (Z.pos p)) 53) as [|Hgt]; [done|].
    assert (2 ^ 53 <= 2 ^ (Zdigits2 (Z.pos p) - 1)) by (apply Z.pow_le_mono_r; lia). lia. }
  unfold F64.of_int, binary_normalize, binary_round.
  change (Z.pos (digits2_pos p)) with (Zdigits2 (Zpos p)).
  set (d := Zdigits2 (Zpos p)) in *.
  unfold fexp, emin, F64.prec, F64.emax. rewrite Z.add_0_r, Z.max_l by lia.
  assert (Hsh : exists mz, shl_align p 0 (d - 53) = (mz, d - 53) /\
                 Zpos mz = Zpos p * 2 ^ (53 - d)).
  { unfold shl_align. rewrite Z.sub_0_r.
    destruct (d - 53) as [|q|q] eqn:Hq; [|lia|].
    - exists p. replace (53 - d) with 0 by lia. split; [done|lia].
    - eexists. split; [done|]. rewrite pos_iter_xO. f_equal. f_equal. lia. }
  destruct Hsh as (mz & -> & Hmz).
  assert (Hbz : 2 ^ 52 <= Zpos mz < 2 ^ 53).
  { rewrite Hmz.
    replace (2 ^ 52) with (2 ^ (d - 1) * 2 ^ (53 - d))
      by (rewrite <- Z.pow_add_r by lia; f_equal; lia).
    replace (2 ^ 53) with (2 ^ d * 2 ^ (53 - d))
      by (rewrite <- Z.pow_add_r by lia; f_equal; lia).
    assert (0 < 2 ^ (53 - d)) by (apply Z.pow_pos_nonneg; lia). nia. }
  assert (Hdz : Zdigits2 (Zpos mz) = 53) by (apply Zdigits2_unique; lia).
  destruct (binary_round_aux_normal false (Zpos mz) (d - 53)) as (m & e & Heq & Hm & Habs & He);
    [lia..|].
  rewrite Hdz in *. change (2 ^ (53 - 53)) with 1 in Habs.
  exists m, e. split; [done|]. split; [done|].
  destruct He as [He|[He Hm2]].
  - replace (e - (d - 53)) with 0 in Habs by lia.
    split; [lia|]. replace (- e) with (53 - d) by lia. lia.
  - replace (e - (d - 53)) with 1 in Habs by lia. lia.
Qed.

(** A positive integer below [2^1023] converts to a normal number. *)
Lemma of_int_finite z :
  0 < z < 2 ^ 1023 ->
  exists m e, F64.of_int z = S754_finite false m e /\ 2 ^ 52 <= Zpos m < 2 ^ 53.
Proof.
  intros Hz. destruct (Z_lt_le_dec z (2 ^ 53)) as [Hlt|Hge].
  { destruct (of_int_exact z) as (m & e & ? & ? & _); [lia|]. by exists m, e. }
  destruct z as [|p|p]; [lia| |lia].
  pose proof (Zdigits2_bounds (Zpos p) ltac:(lia)) as Hb.
  assert (Hd : 54 <= Zdigits2 (Zpos p) <= 1023).
  { split.
    - destruct (Z_le_gt_dec 54 (Zdigits2 (Z.pos p))) as [|Hgt]; [done|].
      assert (2 ^ Zdigits2 (Z.pos p) <= 2 ^ 53) by (apply Z.pow_le_mono_r; lia). lia.
    - destruct (Z_le_gt_dec (Zdigits2 (Z.pos p)) 1023) as [|Hgt]; [done|].
      assert (2 ^ 1023 <= 2 ^ (Zdigits2 (Z.pos p) - 1)) by (apply Z.pow_le_mono_r; lia). lia. }
  unfold F64.of_int, binary_normalize, binary_round.
  change (Z.pos (digits2_pos p)) with (Zdigits2 (Zpos p)).
  set (d := Zdigits2 (Zpos p)) in *.
  unfold fexp, emin, F64.prec, F64.emax. rewrite Z.add_0_r, Z.max_l by lia.
  unfold shl_align. rewrite Z.sub_0_r.
  destruct (d - 53) as [|q|q] eqn:Hq; [lia| |lia].
  destruct (binary_round_aux_normal false (Zpos p) 0) as (m & e & Heq & Hm & _);
    [fold d; lia..|].
  by exists m, e.
Qed.

Lemma div_not_nan f t :
  0 <= f < 2 ^ 1023 -> 0 < t < 2 ^ 1023 ->
  F64.is_nan (F64.div (F64.of_int f) (F64.of_int t)) = false.
Proof.
  intros Hf Ht.
  destruct (of_int_finite t Ht) as (mt & et & -> & _).
  destruct (Z.eq_dec f 0) as [->|Hne]; [done|].
  destruct (of_int_finite f ltac:(lia)) as (mf & ef & -> & _).
  unfold F64.div, SFdiv, SFdiv_core_binary.
  set (s := _ - _ - _). set (m' := match s with 0 => _ | Z.pos _ => _ | Z.neg _ => _ end).
  assert (Hm' : 0 <= m').
  { subst m'. destruct s; [lia| |lia]. apply Z.shiftl_nonneg. lia. }
  pose proof (Z.div_pos m' (Zpos mt) Hm' ltac:(lia)) as Hq.
  unfold Z.div in Hq. destruct (Z.div_eucl m' (Z.pos mt)) as [q r]. simpl in Hq.
  pose proof (binary_round_aux_not_nan (xorb false false) q
    (Z.min (fexp F64.prec F64.emax (Zdigits2 (Z.pos mf) + ef - (Zdigits2 (Z.pos mt) + et))) (ef - et))
    (new_location (Z.pos mt) r) Hq) as Hn.
  unfold F64.prec, F64.emax in *.
  by destruct (binary_round_aux _ _ _ _ _ _).
Qed.

Lemma mul_100_not_nan x :
  F64.is_nan x = false -> F64.is_nan (F64.mul x (F64.of_int 100)) = false.
Proof.
  intros Hx. change (F64.of_int 100) with (S754_finite false 7036874417766400 (-46)).
  destruct x as [s|s| |s m e]; try done.
  unfold F64.mul, SFmul.
  pose proof (binary_round_aux_not_nan (xorb s false)
    (Z.pos (m * 7036874417766400)) (e + -46) loc_Exact ltac:(lia)) as Hn.
  by destruct (binary_round_aux _ _ _ _ _ _).
Qed.

(** Comparison: swapping the operands reverses the outcome. *)
Lemma SFcompare_swap x y : SFcompare y x = CompOpp <$> SFcompare x y.
Proof.
  destruct x as [s1|s1| |s1 m1 e1], y as [s2|s2| |s2 m2 e2]; simpl; try done;
    try (by destruct s1); try (by destruct s2); try (by destruct s1, s2).
  destruct s1, s2; simpl; try done; f_equal;
    rewrite (Z.compare_antisym e1 e2); destruct (e1 ?= e2); simpl; try done;
    change (Pos.compare_cont Eq m2 m1) with (m2 ?= m1)%positive;
    change (Pos.compare_cont Eq m1 m2) with (m1 ?= m2)%positive;
    rewrite (Pos.compare_antisym m1 m2); by destruct (m1 ?= m2)%positive.
Qed.

Lemma le_iff_not_gt x y :
  F64.is_nan x = false -> F64.is_nan y = false ->
  F64.le x y = negb (F64.gt x y).
Proof.
  intros Hx Hy. unfold F64.le, F64.gt, SFleb, SFltb.
  rewrite (SFcompare_swap x y).
  destruct (SFcompare x y) as [[]|] eqn:E; try done.
  destruct x, y; try done; simpl in E;
    repeat match goal with b : bool |- _ => destruct b end; done.
Qed.

Lemma gt_5_gt_2 x :
  F64.gt x (F64.of_int 5) = true -> F64.gt x (F64.of_int 2) = true.
Proof.
  change (F64.of_int 5) with (S754_finite false 5629499534213120 (-50)).
  change (F64.of_int 2) with (S754_finite false 4503599627370496 (-51)).
  unfold F64.gt, SFltb. destruct x as [s|s| |[] m e]; try done.
  cbv beta iota delta [SFcompare].
  destruct (Z.compare_spec (-50) e), (Z.compare_spec (-51) e);
    intros; try done; lia.
Qed.

(** Comparison of normal positive doubles is comparison of their values,
    here scaled by [2^K] to stay in the integers. *)
Lemma lt_normal m1 e1 m2 e2 K :
  2 ^ 52 <= Zpos m1 < 2 ^ 53 -> 2 ^ 52 <= Zpos m2 < 2 ^ 53 ->
  0 <= e1 + K -> 0 <= e2 + K ->
  F64.lt (S754_finite false m1 e1) (S754_finite false m2 e2) = true <->
  Zpos m1 * 2 ^ (e1 + K) < Zpos m2 * 2 ^ (e2 + K).
Proof.
  intros H1 H2 HK1 HK2. unfold F64.lt, SFltb.
  cbv beta iota delta [SFcompare].
  change (Pos.compare_cont Eq m1 m2) with (m1 ?= m2)%positive.
  assert (0 < 2 ^ (e1 + K)) by (apply Z.pow_pos_nonneg; lia).
  assert (0 < 2 ^ (e2 + K)) by (apply Z.pow_pos_nonneg; lia).
  destruct (Z.compare_spec e1 e2) as [->|Hlt|Hgt].
  - destruct (Pos.compare_spec m1 m2) as [->|Hc|Hc]; split; try done; nia.
  - assert (Hp : 2 ^ (e2 + K) = 2 ^ (e1 + K) * 2 ^ (e2 - e1)).
    { rewrite <- Z.pow_add_r by lia. f_equal. lia. }
    assert (2 ^ 1 <= 2 ^ (e2 - e1)) by (apply Z.pow_le_mono_r; lia).
    split; [intros _|done]. rewrite Hp. nia.
  - assert (Hp : 2 ^ (e1 + K) = 2 ^ (e2 + K) * 2 ^ (e1 - e2)).
    { rewrite <- Z.pow_add_r by lia. f_equal. lia. }
    assert (2 ^ 1 <= 2 ^ (e1 - e2)) by (apply Z.pow_le_mono_r; lia).
    split; [done|]. rewrite Hp. nia.
Qed.

(** The test [k < n * 0.8] of the validator, for column counts below
    [2^52], decides [5 k < 4 n] exactly: rounding of the product never
    crosses an integer. *)
Lemma lt_times_0_8 n k :
  5 <= n < 2 ^ 52 -> 0 <= k <= n ->
  F64.lt (F64.of_int k) (F64.mul (F64.of_int n) F64.lit_0_8) = bool_decide (5 * k < 4 * n).
Proof.
  intros Hn Hk.
  destruct (of_int_exact n ltac:(lia)) as (mn & en & -> & Hmn & Hen & Hmn').
  unfold F64.mul, F64.lit_0_8, SFmul, F64.prec, F64.emax.
  rewrite Pos2Z.inj_mul. simpl xorb.
  set (A := 2 ^ (- en)) in *.
  assert (HA : 2 <= A).
  { assert (0 < A) by (apply Z.pow_pos_nonneg; lia). nia. }
  set (M := 7205759403792794) in *.
  set (X := Z.pos mn * M).
  assert (HX : 2 ^ 104 <= X < 2 ^ 106) by (subst X M; lia).
  assert (Hd : Zdigits2 X = 105 /\ X < 2 ^ 105 \/ Zdigits2 X = 106).
  { destruct (Z_lt_le_dec X (2 ^ 105)).
    - left. split; [|done]. apply Zdigits2_unique; lia.
    - right. apply Zdigits2_unique; lia. }
  destruct (binary_round_aux_normal false X (en + -53)) as (m & e & -> & Hm & Habs & He);
    [lia..|].
  destruct (Z.eq_dec k 0) as [->|Hk0].
  { rewrite bool_decide_eq_true_2 by lia. done. }
  destruct (of_int_exact k ltac:(lia)) as (mk & ek & -> & Hmk & Hek & Hmk').
  apply eq_true_iff_eq. rewrite bool_decide_eq_true.
  rewrite (lt_normal mk ek m e (53 - en)) by lia.
  replace (e + (53 - en)) with (e - (en + -53)) by lia.
  assert (HT : Z.pos mk * 2 ^ (ek + (53 - en)) = k * A * 2 ^ 53).
  { rewrite Hmk'. subst A.
    rewrite <- Z.mul_assoc, <- Z.pow_add_r by lia.
    rewrite <- Z.mul_assoc, <- Z.pow_add_r by lia.
    f_equal. f_equal. lia. }
  rewrite HT.
  assert (HkA : 5 * k < 4 * n -> 5 * (k * A) + A <= 4 * Z.pos mn) by nia.
  assert (HkA' : 4 * n <= 5 * k -> 4 * Z.pos mn <= 5 * (k * A)) by nia.
  subst X M. clearbody A. generalize dependent (k * A). intros kA HT HkA HkA'.
  destruct Hd as [[Hd HX105]|Hd]; rewrite Hd in *;
    destruct He as [He|[He Hm2]];
    [ replace (e - (en + -53)) with 52 in * by lia
    | replace (e - (en + -53)) with 53 in * by lia
    | replace (e - (en + -53)) with 53 in * by lia
    | replace (e - (en + -53)) with 54 in * by lia ];
    change (2 ^ (105 - 53)) with (2 ^ 52) in *;
    change (2 ^ (106 - 53)) with (2 ^ 53) in *;
    split; intros; lia.
Qed.

End F64Facts.

(** ** Risk metrics *)

Import F64Facts.

Lemma count_eq_bounds v (l : list Z) : 0 <= count_eq v l <= len l.
Proof.
  unfold len. induction l as [|p ps IH]; simpl count_eq; [simpl; lia|].
  rewrite length_cons, Nat2Z.inj_succ. destruct (p =? v); lia.
Qed.

Lemma fraud_rate_not_nan fraud total :
  0 <= fraud <= total -> 0 < total < 2 ^ 63 ->
  F64.is_nan (compute_fraud_rate fraud total) = false.
Proof.
  intros Hf Ht. unfold compute_fraud_rate.
  assert (2 ^ 63 < 2 ^ 1023) by (by apply Z.pow_lt_mono_r).
  apply mul_100_not_nan, div_not_nan; lia.
Qed.

Lemma classify_spec rate :
  F64.is_nan rate = false ->
  ((classify rate).1 = HIGH <-> F64.gt rate (F64.of_int 5) = true) /\
  ((classify rate).1 = MEDIUM <->
     F64.gt rate (F64.of_int 2) = true /\ F64.le rate (F64.of_int 5) = true) /\
  ((classify rate).1 = LOW <-> F64.le rate (F64.of_int 2) = true).
Proof.
  intros Hn.
  rewrite !le_iff_not_gt by done.
  pose proof (gt_5_gt_2 rate) as H52. unfold classify.
  destruct (F64.gt rate (F64.of_int 5)) eqn:H5;
    [rewrite H52 by done|destruct (F64.gt rate (F64.of_int 2)) eqn:H2];
    simpl; intuition congruence.
Qed.

Lemma calculate_risk_metrics_fields np_mean np_max np_min predictions probabilities m :
  calculate_risk_metrics np_mean np_max np_min predictions probabilities = Some m ->
  total_transactions m = len predictions /\
  fraud_count m = count_eq 1 predictions /\
  legitimate_count m = count_eq 0 predictions /\
  fraud_rate m = compute_fraud_rate (count_eq 1 predictions) (len predictions) /\
  risk_level m = (classify (fraud_rate m)).1.
Proof.
  unfold calculate_risk_metrics, len.
  destruct (classify _) as [level icon] eqn:Hc.
  destruct probabilities as [ps|]; [destruct (compute_prob_stats _ _ _ ps)|];
    intros [= <-]; simpl; by rewrite ?Hc.
Qed.

Lemma calculate_risk_metrics_returns np_mean np_max np_min predictions probabilities :
  probabilities <> Some [] ->
  is_Some (calculate_risk_metrics np_mean np_max np_min predictions probabilities).
Proof.
  intros Hp. unfold calculate_risk_metrics.
  destruct (classify _) as [level icon].
  destruct probabilities as [[|p ps]|]; simpl; by eauto.
Qed.

(** C2.  For every predictions array with total > 0 (and below the
    array-size limit of 2^63) on which the function returns, the risk
    level is HIGH exactly when the computed fraud rate is > 5, MEDIUM
    exactly when it is > 2 and <= 5, and LOW exactly when it is <= 2.
    The array of 98 zeros and 2 ones has rate 2.0 and level LOW; the array
    [0,0,0,0,1] has rate 20.0 and level HIGH. *)
Theorem risk_level_thresholds :
  (forall np_mean np_max np_min predictions probabilities,
     0 < len predictions < 2 ^ 63 ->
     probabilities <> Some [] ->
     exists m,
       calculate_risk_metrics np_mean np_max np_min predictions probabilities = Some m /\
       (risk_level m = HIGH <-> F64.gt (fraud_rate m) (F64.of_int 5) = true) /\
       (risk_level m = MEDIUM <->
          F64.gt (fraud_rate m) (F64.of_int 2) = true /\
          F64.le (fraud_rate m) (F64.of_int 5) = true) /\
       (risk_level m = LOW <-> F64.le (fraud_rate m) (F64.of_int 2) = true)) /\
  (forall np_mean np_max np_min,
     exists m,
       calculate_risk_metrics np_mean np_max np_min
         (replicate 98 0 ++ replicate 2 1) None = Some m /\
       fraud_rate m = F64.of_int 2 /\ risk_level m = LOW) /\
  (forall np_mean np_max np_min,
     exists m,
       calculate_risk_metrics np_mean np_max np_min [0; 0; 0; 0; 1] None = Some m /\
       fraud_rate m = F64.of_int 20 /\ risk_level m = HIGH).
Proof.
  split; [|split].
  - intros np_mean np_max np_min predictions probabilities Hlen Hp.
    destruct (calculate_risk_metrics_returns np_mean np_max np_min predictions
                probabilities Hp) as [m Hm].
    exists m. split; [done|].
    destruct (calculate_risk_metrics_fields _ _ _ _ _ _ Hm) as (_ & _ & _ & Hr & ->).
    apply classify_spec. rewrite Hr.
    pose proof (count_eq_bounds 1 predictions).
    apply fraud_rate_not_nan; lia.
  - intros. eexists. split; [reflexivity|]. by vm_compute.
  - intros. eexists. split; [reflexivity|]. by vm_compute.
Qed.

Lemma risk_level_thresholds_witness :
  exists m,
    calculate_risk_metrics (fun _ => F64.zero) (fun _ => F64.zero) (fun _ => F64.zero)
      [0; 1; 0; 0] None = Some m /\
    (risk_level m = HIGH <-> F64.gt (fraud_rate m) (F64.of_int 5) = true) /\
    (risk_level m = MEDIUM <->
       F64.gt (fraud_rate m) (F64.of_int 2) = true /\
       F64.le (fraud_rate m) (F64.of_int 5) = true) /\
    (risk_level m = LOW <-> F64.le (fraud_rate m) (F64.of_int 2) = true).
Proof.
  apply (proj1 risk_level_thresholds); [by vm_compute | done].
Defined.

Lemma count_eq_filter v (l : list Z) : count_eq v l = len (filter (fun p => p = v) l).
Proof.
  unfold len. induction l as [|p ps IH]; [done|].
  simpl count_eq. rewrite filter_cons.
  destruct (Z.eqb_spec p v); case_decide; try done;
    rewrite ?length_cons, ?Nat2Z.inj_succ; lia.
Qed.

Lemma count_eq_binary (l : list Z) :
  Forall (fun p => p = 0 \/ p = 1) l -> count_eq 1 l + count_eq 0 l = len l.
Proof.
  unfold len. induction 1 as [|p ps [-> | ->] _ IH]; simpl count_eq;
    rewrite ?length_cons, ?Nat2Z.inj_succ; simpl; lia.
Qed.

(** C5.  For every predictions array whose entries are all 0 or 1,
    [calculate_risk_metrics] returns a record whose total is the length
    of the array, whose fraud count is the number of entries equal to 1,
    whose legitimate count is the number of entries equal to 0, and
    fraud_count + legitimate_count = total_transactions. *)
Theorem counts_partition np_mean np_max np_min predictions probabilities :
  Forall (fun p => p = 0 \/ p = 1) predictions ->
  probabilities <> Some [] ->
  exists m,
    calculate_risk_metrics np_mean np_max np_min predictions probabilities = Some m /\
    total_transactions m = len predictions /\
    fraud_count m = len (filter (fun p => p = 1) predictions) /\
    legitimate_count m = len (filter (fun p => p = 0) predictions) /\
    fraud_count m + legitimate_count m = total_transactions m.
Proof.
  intros Hbin Hp.
  destruct (calculate_risk_metrics_returns np_mean np_max np_min predictions
              probabilities Hp) as [m Hm].
  exists m. split; [done|].
  destruct (calculate_risk_metrics_fields _ _ _ _ _ _ Hm) as (-> & -> & -> & _).
  rewrite <- !count_eq_filter. auto using count_eq_binary.
Qed.

Lemma counts_partition_witness :
  exists m,
    calculate_risk_metrics (fun _ => F64.zero) (fun _ => F64.zero) (fun _ => F64.zero)
      [0; 1; 1; 0; 0] None = Some m /\
    total_transactions m = len [0; 1; 1; 0; 0] /\
    fraud_count m = len (filter (fun p => p = 1) [0; 1; 1; 0; 0]) /\
    legitimate_count m = len (filter (fun p => p = 0) [0; 1; 1; 0; 0]) /\
    fraud_count m + legitimate_count m = total_transactions m.
Proof.
  apply counts_partition; [|done].
  repeat (constructor; [lia|]). constructor.
Defined.

(** C1.  What the code does on the empty predictions array: no
    exception, total 0 and level LOW, but the division 0/0 is not guarded
    and the fraud rate is NaN, which does not compare equal to 0. *)
Theorem empty_predictions_rate_is_nan np_mean np_max np_min :
  exists m,
    calculate_risk_metrics np_mean np_max np_min [] None = Some m /\
    total_transactions m = 0 /\
    risk_level m = LOW /\
    fraud_rate m = S754_nan /\
    F64.is_nan (fraud_rate m) = true /\
    SFeqb (fraud_rate m) (F64.of_int 0) = false.
Proof. eexists. split; [reflexivity|]. by vm_compute. Qed.

(** ** Validation *)

Lemma filter_split_length {A} (P : A -> Prop) `{!forall x, Decision (P x)} (l : list A) :
  len (filter P l) + len (filter (fun x => ~ P x) l) = len l.
Proof.
  unfold len. induction l as [|x l IH]; [done|].
  rewrite !filter_cons. destruct (decide (P x)), (decide (~ P x)); try done;
    rewrite ?length_cons, ?Nat2Z.inj_succ; lia.
Qed.

Lemma missing_features_count data :
  len (filter (fun col => col ∈ columns data) expected_features)
  + len (missing_features data) = 28.
Proof.
  unfold missing_features.
  by rewrite (filter_split_length (fun col => col ∈ columns data) expected_features).
Qed.

Lemma numeric_columns_count data :
  0 <= len (numeric_columns data) <= len (columns data).
Proof.
  unfold numeric_columns, columns, len. rewrite !length_fmap.
  split; [lia|]. apply Nat2Z.inj_le, length_filter.
Qed.

(** C4.  For every table (with fewer than 2^52 columns): if it has at
    least 5 columns, at least 9 of the 28 canonical feature names and at
    least 80% numeric-typed columns, validation succeeds; and the failure
    rules apply in order: fewer than 5 columns fails first, whatever the
    rest; otherwise more than 20 absent canonical names fails, whatever
    the dtypes; otherwise fewer than 80% numeric columns fails. *)
Theorem validate_csv_data_rules (data : DataFrame) :
  len (columns data) < 2 ^ 52 ->
  (5 <= len (columns data) ->
   9 <= len (filter (fun col => col ∈ columns data) expected_features) ->
   4 * len (columns data) <= 5 * len (numeric_columns data) ->
   validate_csv_data data = (true, msg_passed)) /\
  (len (columns data) < 5 ->
   validate_csv_data data = (false, msg_too_few_columns)) /\
  (5 <= len (columns data) -> 20 < len (missing_features data) ->
   validate_csv_data data = (false, msg_missing_features (missing_features data))) /\
  (5 <= len (columns data) -> len (missing_features data) <= 20 ->
   5 * len (numeric_columns data) < 4 * len (columns data) ->
   validate_csv_data data = (false, msg_not_numeric)).
Proof.
  intros Hbound.
  pose proof (missing_features_count data) as Hmiss.
  pose proof (numeric_columns_count data) as Hnum.
  unfold validate_csv_data.
  repeat split; intros;
    repeat match goal with
    | |- context [?a <? ?b] => destruct (Z.ltb_spec a b); try lia
    end; try done;
    rewrite lt_times_0_8 by lia;
    case_bool_decide; done || lia.
Qed.

Lemma validate_csv_data_rules_witness :
  len (columns example_upload_table) < 2 ^ 52 /\
  validate_csv_data example_upload_table = (true, msg_passed).
Proof.
  assert (H : len (columns example_upload_table) < 2 ^ 52) by (by vm_compute).
  split; [exact H|].
  apply (proj1 (validate_csv_data_rules example_upload_table H)); by vm_compute.
Defined.

(** ** Feature preparation *)

Section PrepareFacts.

Variable parse_number : string -> option float64.
Variable to_numeric_raises : list cell -> bool.

Local Abbreviation coerce_column' := (coerce_column parse_number to_numeric_raises).
Local Abbreviation coerce_series' := (coerce_series parse_number to_numeric_raises).
Local Abbreviation coerce_at' := (coerce_at parse_number to_numeric_raises).
Local Abbreviation coerce_all' := (coerce_all parse_number to_numeric_raises).
Local Abbreviation prepare' := (prepare_data_for_prediction parse_number to_numeric_raises).

Lemma coerce_at_absent name (df : DataFrame) :
  name ∉ columns df -> coerce_at' name <$> df = df.
Proof.
  induction df as [|[n s] rest IH]; [done|]. unfold columns in *.
  rewrite !fmap_cons, not_elem_of_cons. cbn [fst]. intros [Hne Hnot].
  unfold coerce_at at 1. simpl. rewrite decide_False by done.
  f_equal. by apply IH.
Qed.

Lemma coerce_column_cons_ne n s rest name :
  n <> name ->
  coerce_column' ((n, s) :: rest) name = (n, s) :: coerce_column' rest name.
Proof.
  intros Hne. unfold coerce_column. simpl.
  rewrite decide_False by done.
  destruct (get_column name rest) as [s1|]; [|done].
  destruct (is_numeric_dtype s1); [done|].
  destruct (to_numeric _ _ s1); simpl; by rewrite decide_False.
Qed.

Lemma coerce_column_map (df : DataFrame) name :
  NoDup (columns df) -> coerce_column' df name = coerce_at' name <$> df.
Proof.
  induction df as [|[n s] rest IH]; [done|].
  unfold columns in *. rewrite !fmap_cons, NoDup_cons. cbn [fst]. intros [Hnot Hnd].
  destruct (decide (n = name)) as [->|Hne].
  - rewrite (coerce_at_absent name rest Hnot).
    unfold coerce_column, coerce_at, coerce_series. simpl.
    rewrite !decide_True by done.
    destruct (is_numeric_dtype s); [done|].
    destruct (to_numeric _ _ s); simpl; try case_decide; done.
  - rewrite coerce_column_cons_ne by done. rewrite IH by done.
    unfold coerce_at at 2. simpl. by rewrite decide_False.
Qed.

Lemma columns_coerce_at name (df : DataFrame) :
  columns (coerce_at' name <$> df) = columns df.
Proof.
  unfold columns. rewrite <- list_fmap_compose. apply list_fmap_ext.
  intros i [n s] _. unfold coerce_at. simpl. by case_decide.
Qed.

Lemma coerce_series_numeric s : is_numeric_dtype (coerce_series' s) = true.
Proof.
  unfold coerce_series. destruct s as [zs|xs|bs|cs]; try done. simpl.
  by destruct (to_numeric_raises cs).
Qed.

Lemma coerce_series_idemp s : coerce_series' (coerce_series' s) = coerce_series' s.
Proof.
  unfold coerce_series at 1. by rewrite coerce_series_numeric.
Qed.

Lemma coerce_loop_names (df : DataFrame) (names : list string) :
  NoDup (columns df) ->
  foldl coerce_column' df names =
    (fun c => if decide (c.1 ∈ names) then (c.1, coerce_series' c.2) else c) <$> df.
Proof.
  revert df. induction names as [|name names IH]; intros df Hnd; simpl.
  - rewrite <- (list_fmap_id df) at 1. apply list_fmap_ext.
    by intros i c _.
  - rewrite coerce_column_map by done.
    rewrite IH by (by rewrite columns_coerce_at).
    rewrite <- list_fmap_compose. apply list_fmap_ext.
    intros i [n s] _. unfold coerce_at. simpl.
    destruct (decide (n = name)) as [->|Hne]; simpl.
    + rewrite (decide_True (P := name ∈ name :: names)) by left.
      case_decide; [|done]. by rewrite coerce_series_idemp.
    + destruct (decide (n ∈ names)) as [Hin|Hnin].
      * by rewrite decide_True by (by right).
      * rewrite decide_False; [done|]. rewrite elem_of_cons. intros [?|?]; done.
Qed.

Lemma coerce_loop_all (df : DataFrame) :
  NoDup (columns df) -> foldl coerce_column' df (columns df) = coerce_all' df.
Proof.
  intros Hnd. rewrite coerce_loop_names by done.
  apply list_fmap_ext. intros i [n s] Hi. simpl.
  rewrite decide_True; [done|].
  apply list_elem_of_lookup_2 in Hi. unfold columns.
  apply list_elem_of_fmap. by exists (n, s).
Qed.

Lemma drop_column_absent name (df : DataFrame) :
  name ∉ columns df -> drop_column name df = df.
Proof.
  unfold drop_column, columns. induction df as [|[n s] rest IH]; [done|].
  rewrite fmap_cons, not_elem_of_cons. cbn [fst]. intros [Hne Hnot].
  rewrite filter_cons_True by (simpl; congruence). f_equal. by apply IH.
Qed.

Lemma columns_drop_column name (df : DataFrame) :
  columns (drop_column name df) = filter (fun n => n <> name) (columns df).
Proof.
  unfold drop_column, columns. induction df as [|[n s] rest IH]; [done|].
  rewrite fmap_cons, !filter_cons. cbn [fst].
  case_decide; by rewrite ?fmap_cons, IH.
Qed.

Lemma NoDup_drop_column name (df : DataFrame) :
  NoDup (columns df) -> NoDup (columns (drop_column name df)).
Proof. rewrite columns_drop_column. apply NoDup_filter. Qed.

Lemma get_column_elem name s (df : DataFrame) :
  NoDup (columns df) -> (name, s) ∈ df -> get_column name df = Some s.
Proof.
  unfold columns. induction df as [|[n s0] rest IH]; intros Hnd Hin.
  { by apply not_elem_of_nil in Hin. }
  rewrite fmap_cons, NoDup_cons in Hnd. cbn [fst] in Hnd. destruct Hnd as [Hnot Hnd].
  apply elem_of_cons in Hin as [[= <- <-]|Hin]; simpl.
  - by rewrite decide_True.
  - rewrite decide_False; [by apply IH|].
    intros ->. apply Hnot, list_elem_of_fmap. by exists (name, s).
Qed.

Lemma get_column_absent name (df : DataFrame) :
  name ∉ columns df -> get_column name df = None.
Proof.
  unfold columns. induction df as [|[n s0] rest IH]; [done|].
  rewrite fmap_cons, not_elem_of_cons. cbn [fst]. intros [Hne Hnot]. simpl.
  rewrite decide_False by done. by apply IH.
Qed.

(** The heap, the returned object and the labels, in closed form. *)
Lemma prepare_spec (h : heap) (data : loc) (df : DataFrame) :
  h !! data = Some df -> NoDup (columns df) ->
  prepare' h data = Some
    (if decide ("Class" ∈ columns df) then
       let dropped := coerce_all' (drop_column "Class" df) in
       (h ++ [dropped] ++ [fillna dropped], S (length h), get_column "Class" df)
     else
       (<[data := coerce_all' df]> h ++ [fillna (coerce_all' df)], length h, None)).
Proof.
  intros Hdata Hnd. unfold prepare_data_for_prediction. rewrite Hdata.
  pose proof (lookup_lt_Some _ _ _ Hdata) as Hlt.
  case_decide as Hclass; unfold alloc, coerce_loop.
  - rewrite list_lookup_middle by done.
    rewrite coerce_loop_all by (by apply NoDup_drop_column).
    rewrite insert_app_r_alt, Nat.sub_diag by done. simpl.
    rewrite list_lookup_middle by done.
    rewrite length_app. simpl. rewrite Nat.add_1_r.
    by rewrite <- app_assoc.
  - rewrite Hdata, coerce_loop_all by done.
    rewrite list_lookup_insert_eq by done.
    by rewrite length_insert.
Qed.

Lemma fillna_series_clean s :
  is_numeric_dtype s = true ->
  is_numeric_dtype (fillna_series s) = true /\ has_missing (fillna_series s) = false.
Proof.
  destruct s as [zs|xs|bs|cs]; try done. intros _. split; [done|]. simpl.
  induction xs as [|x xs IH]; [done|]. rewrite fmap_cons. simpl. rewrite IH.
  by destruct x.
Qed.

Lemma prepared_columns_clean (df : DataFrame) :
  Forall (fun c => is_numeric_dtype c.2 = true /\ has_missing c.2 = false)
         (fillna (coerce_all' df)).
Proof.
  unfold fillna, coerce_all. rewrite <- list_fmap_compose.
  apply Forall_fmap, Forall_forall. intros [n s] _. simpl.
  apply fillna_series_clean, coerce_series_numeric.
Qed.

Lemma columns_prepared (df : DataFrame) :
  columns (fillna (coerce_all' df)) = columns df.
Proof.
  unfold fillna, coerce_all, columns. rewrite <- !list_fmap_compose.
  by apply list_fmap_ext.
Qed.

Lemma coerced_object_column name cs (df : DataFrame) :
  (name, ObjSeries cs) ∈ df ->
  (name, if to_numeric_raises cs then zeros (length cs)
         else FloatSeries (coerce_cell parse_number <$> cs)) ∈ coerce_all' df.
Proof.
  intros Hin. unfold coerce_all. apply list_elem_of_fmap.
  exists (name, ObjSeries cs). split; [|done].
  unfold coerce_series. simpl. by destruct (to_numeric_raises cs).
Qed.

Lemma prepared_object_column name cs (df : DataFrame) :
  (name, ObjSeries cs) ∈ df ->
  (name, if to_numeric_raises cs then zeros (length cs)
         else FloatSeries (prepared_cell parse_number <$> cs))
    ∈ fillna (coerce_all' df).
Proof.
  intros Hin. apply coerced_object_column in Hin.
  unfold fillna. apply list_elem_of_fmap. eexists. split; [|exact Hin].
  destruct (to_numeric_raises cs); [done|]. simpl.
  by rewrite <- list_fmap_compose.
Qed.

End PrepareFacts.

(** C3.  For every live table with distinct column labels,
    [prepare_data_for_prediction] returns a features table in which every
    column is numeric and has no missing value; a value of an object
    column that fails numeric coercion is 0 there (and the whole column
    is 0 when the coercion call raises); the columns are those of the
    input without 'Class', in order; and the labels are the 'Class'
    column when the input has one and null otherwise. *)
Theorem prepare_data_postcondition parse_number to_numeric_raises
    (h : heap) (data : loc) (df : DataFrame) :
  h !! data = Some df -> NoDup (columns df) ->
  exists h' features_df labels features,
    prepare_data_for_prediction parse_number to_numeric_raises h data
      = Some (h', features_df, labels) /\
    h' !! features_df = Some features /\
    Forall (fun c => is_numeric_dtype c.2 = true /\ has_missing c.2 = false) features /\
    (forall name cs, (name, ObjSeries cs) ∈ df -> name <> "Class" ->
       (name, if to_numeric_raises cs then zeros (length cs)
              else FloatSeries (prepared_cell parse_number <$> cs)) ∈ features) /\
    columns features = filter (fun n => n <> "Class") (columns df) /\
    ("Class" ∉ columns features) /\
    labels = get_column "Class" df /\
    (forall s, ("Class", s) ∈ df -> labels = Some s) /\
    ("Class" ∉ columns df -> labels = None).
Proof.
  intros Hdata Hnd.
  rewrite (prepare_spec _ _ h data df Hdata Hnd).
  set (X := drop_column "Class" df).
  assert (HX : forall name cs, (name, ObjSeries cs) ∈ df -> name <> "Class" ->
                (name, ObjSeries cs) ∈ X).
  { intros name cs Hin Hne. apply list_elem_of_filter. by split. }
  assert (Hcols : columns (fillna (coerce_all parse_number to_numeric_raises X))
                  = filter (fun n => n <> "Class") (columns df)).
  { rewrite columns_prepared. apply columns_drop_column. }
  assert (Hnot : "Class" ∉ columns (fillna (coerce_all parse_number to_numeric_raises X))).
  { rewrite Hcols. intros [? _]%list_elem_of_filter. done. }
  case_decide as Hclass.
  - do 4 eexists. split; [reflexivity|].
    split. { rewrite app_assoc. by apply list_lookup_middle; rewrite length_app, Nat.add_1_r. }
    split; [apply prepared_columns_clean|].
    split. { intros name cs Hin Hne. by apply prepared_object_column, HX. }
    split; [done|]. split; [done|]. split; [done|].
    split; [|done]. intros s Hs. by apply get_column_elem.
  - assert (HXdf : X = df) by (by apply drop_column_absent).
    rewrite HXdf in *.
    do 4 eexists. split; [reflexivity|].
    split. { by apply list_lookup_middle; rewrite length_insert. }
    split; [apply prepared_columns_clean|].
    split. { intros name cs Hin Hne. by apply prepared_object_column. }
    split; [done|]. split; [done|].
    split. { symmetry. by apply get_column_absent. }
    split; [|done]. intros s Hs. exfalso. apply Hclass.
    apply list_elem_of_fmap. by exists ("Class", s).
Qed.

Lemma prepare_data_postcondition_witness :
  exists h' features_df labels features,
    prepare_data_for_prediction (fun _ => None) (fun _ => false) [example_table] 0%nat
      = Some (h', features_df, labels) /\
    h' !! features_df = Some features /\
    Forall (fun c => is_numeric_dtype c.2 = true /\ has_missing c.2 = false) features /\
    (forall name cs, (name, ObjSeries cs) ∈ example_table -> name <> "Class" ->
       (name, if (fun _ => false) cs then zeros (length cs)
              else FloatSeries (prepared_cell (fun _ => None) <$> cs)) ∈ features) /\
    columns features = filter (fun n => n <> "Class") (columns example_table) /\
    ("Class" ∉ columns features) /\
    labels = get_column "Class" example_table /\
    (forall s, ("Class", s) ∈ example_table -> labels = Some s) /\
    ("Class" ∉ columns example_table -> labels = None).
Proof.
  apply (prepare_data_postcondition (fun _ => None) (fun _ => false)
           [example_table] 0%nat example_table).
  - reflexivity.
  - apply (bool_decide_unpack (NoDup _)). vm_compute. exact I.
Defined.

(** C9, as stated, fails: on a table without 'Class' the returned
    features table is object 1, created by [fillna], and not the input
    object 0; the input object holds the coerced column with NaN where
    the returned one holds 0. *)
Lemma returned_features_not_input_object :
  (get_column "Class" example_no_class = None /\
   prepare_data_for_prediction (fun _ => None) (fun _ => false) [example_no_class] 0%nat
     = Some ([ [ ("V1", IntSeries [1; 2]);
                 ("note", FloatSeries [S754_nan; F64.of_int 7]) ];
               [ ("V1", IntSeries [1; 2]);
                 ("note", FloatSeries [F64.zero; F64.of_int 7]) ] ],
             1%nat, None)) /\
  ~ (forall (h : heap) (data : loc) (df : DataFrame) h' features_df labels,
       h !! data = Some df -> "Class" ∉ columns df ->
       prepare_data_for_prediction (fun _ => None) (fun _ => false) h data
         = Some (h', features_df, labels) ->
       features_df = data).
Proof.
  split; [split; reflexivity|]. intros Hsame.
  enough (1%nat = 0%nat) by done.
  eapply (Hsame [example_no_class] 0%nat example_no_class); [reflexivity| |reflexivity].
  apply (bool_decide_unpack _). by vm_compute.
Qed.

(** C9, amended.  [prepare_data_for_prediction] has a side effect on its
    argument: when the table has no 'Class' column the coercion loop runs
    on the input object itself, so every non-numeric column of the
    caller's table is overwritten in place with the coerced numeric
    values (NaN where coercion fails, zeros when the call raises); the
    returned features table is nevertheless a new object, made by
    [fillna(0)] from the coerced table.  When 'Class' is present the loop
    runs on the dropped copy and the caller's table is unchanged.  No
    other object changes. *)
Theorem prepare_frame_effect parse_number to_numeric_raises
    (h : heap) (data : loc) (df : DataFrame) :
  h !! data = Some df -> NoDup (columns df) ->
  exists h' features_df labels,
    prepare_data_for_prediction parse_number to_numeric_raises h data
      = Some (h', features_df, labels) /\
    h !! features_df = None /\ features_df <> data /\
    (forall l, l <> data -> (l < length h)%nat -> h' !! l = h !! l) /\
    ("Class" ∉ columns df ->
       h' !! data = Some (coerce_all parse_number to_numeric_raises df) /\
       h' !! features_df
         = Some (fillna (coerce_all parse_number to_numeric_raises df)) /\
       forall name cs, (name, ObjSeries cs) ∈ df ->
         (name, if to_numeric_raises cs then zeros (length cs)
                else FloatSeries (coerce_cell parse_number <$> cs))
           ∈ coerce_all parse_number to_numeric_raises df) /\
    ("Class" ∈ columns df -> h' !! data = Some df).
Proof.
  intros Hdata Hnd.
  rewrite (prepare_spec _ _ h data df Hdata Hnd).
  pose proof (lookup_lt_Some _ _ _ Hdata) as Hlt.
  case_decide as Hclass.
  - do 3 eexists. split; [reflexivity|].
    split. { apply lookup_ge_None_2. lia. }
    split; [lia|].
    split. { intros l _ Hl. by apply lookup_app_l. }
    split; [done|]. intros _. rewrite lookup_app_l by done. done.
  - do 3 eexists. split; [reflexivity|].
    split. { by apply lookup_ge_None_2. }
    split; [lia|].
    split. { intros l Hne Hl. rewrite lookup_app_l by (by rewrite length_insert).
             by apply list_lookup_insert_ne. }
    split; [|done]. intros _.
    split. { rewrite lookup_app_l by (by rewrite length_insert).
             by apply list_lookup_insert_eq. }
    split. { by apply list_lookup_middle; rewrite length_insert. }
    intros name cs Hin. by apply coerced_object_column.
Qed.

Lemma prepare_frame_effect_witness :
  exists h' features_df labels,
    prepare_data_for_prediction (fun _ => None) (fun _ => false) [example_no_class] 0%nat
      = Some (h', features_df, labels) /\
    [example_no_class] !! features_df = None /\ features_df <> 0%nat /\
    (forall l, l <> 0%nat -> (l < length [example_no_class])%nat ->
       h' !! l = [example_no_class] !! l) /\
    ("Class" ∉ columns example_no_class ->
       h' !! 0%nat = Some (coerce_all (fun _ => None) (fun _ => false) example_no_class) /\
       h' !! features_df
         = Some (fillna (coerce_all (fun _ => None) (fun _ => false) example_no_class)) /\
       forall name cs, (name, ObjSeries cs) ∈ example_no_class ->
         (name, if (fun _ => false) cs then zeros (length cs)
                else FloatSeries (coerce_cell (fun _ => None) <$> cs))
           ∈ coerce_all (fun _ => None) (fun _ => false) example_no_class) /\
    ("Class" ∈ columns example_no_class -> h' !! 0%nat = Some example_no_class).
Proof.
  apply (prepare_frame_effect (fun _ => None) (fun _ => false)
           [example_no_class] 0%nat example_no_class).
  - reflexivity.
  - apply (bool_decide_unpack (NoDup _)). vm_compute. exact I.
Defined.

(** ** The token store *)

Lemma write_row_nonempty fields : Csv.write_row fields <> [].
Proof.
  unfold Csv.write_row.
  destruct fields as [|[|c f] [|g rest]]; try done;
    by intros [? ?]%app_eq_nil.
Qed.

Lemma to_csv_nonempty render_float (df : DataFrame) :
  encode_utf8 (to_csv render_float df) <> [].
Proof.
  unfold encode_utf8, to_csv. rewrite String.list_ascii_of_string_of_list_ascii.
  unfold Csv.write. rewrite fmap_cons. simpl.
  intros [? _]%app_eq_nil. by eapply write_row_nonempty.
Qed.

Section StoreFacts.

Variable parse_number : string -> option float64.
Variable to_numeric_raises : list cell -> bool.
Variable np_mean np_max np_min : list float64 -> float64.
Variable format_fixed : nat -> float64 -> string.
Variable format_thousands : Z -> string.
Variable now : string.
Variable render_float : float64 -> string.
Variable read_csv : bytes -> string + DataFrame.
Variable MODEL : option model.
Variable MODEL_PATH : option string.

Local Abbreviation predict' :=
  (predict parse_number to_numeric_raises np_mean np_max np_min
     format_fixed format_thousands now render_float read_csv MODEL MODEL_PATH).
Local Abbreviation reachable' :=
  (reachable parse_number to_numeric_raises np_mean np_max np_min
     format_fixed format_thousands now render_float read_csv MODEL MODEL_PATH).

(** What [predict] does to the store, by the kind of its response. *)
Lemma predict_store (store : gmap string bytes) files token :
  match (predict' store files token).1 with
  | Rendered page =>
      download_token page = token /\
      exists results_df,
        (predict' store files token).2
          = <[token := encode_utf8 (to_csv render_float results_df)]> store
  | _ => (predict' store files token).2 = store
  end.
Proof.
  unfold predict.
  repeat match goal with
  | |- context [match ?x with _ => _ end] =>
      lazymatch x with
      | context [match _ with _ => _ end] => fail
      | _ => destruct x eqn:?
      end
  | |- context [if ?x then _ else _] => destruct x eqn:?
  end; simplify_eq/=; try done.
  all: split; [done|]; by eexists.
Qed.

Lemma reachable_nonempty store : reachable' store -> artifacts_nonempty store.
Proof.
  induction 1 as [|store files token _ IH|store token _ IH]; intros t d.
  - by rewrite lookup_empty.
  - pose proof (predict_store store files token) as Hp.
    destruct (predict' store files token).1; simpl in *;
      try (rewrite Hp; by apply IH).
    destruct Hp as (_ & results_df & ->).
    rewrite lookup_insert. case_decide; [|by apply IH].
    intros [= <-]. apply to_csv_nonempty.
  - unfold download. destruct (store !! token) as [[|c data]|] eqn:E; simpl;
      try by apply IH.
    rewrite lookup_delete. case_decide; [done|by apply IH].
Qed.

End StoreFacts.

(** C6.  In every state the store can reach, a stored artifact is
    retrievable exactly once: the first download of a stored token sends
    the artifact bytes and deletes the entry, a second download of the
    same token is answered with the expired-link redirect, and so is the
    download of a token that is not in the store. *)
Theorem download_exactly_once parse_number to_numeric_raises np_mean np_max np_min
    format_fixed format_thousands now render_float read_csv MODEL MODEL_PATH
    (store : gmap string bytes) (token : string) :
  reachable parse_number to_numeric_raises np_mean np_max np_min
    format_fixed format_thousands now render_float read_csv MODEL MODEL_PATH store ->
  (forall data, store !! token = Some data ->
     download store token = (SendFile data, delete token store) /\
     (download store token).2 !! token = None /\
     download (download store token).2 token
       = (Redirect "warning" msg_expired, delete token store)) /\
  (store !! token = None ->
     download store token = (Redirect "warning" msg_expired, store)).
Proof.
  intros Hreach. split.
  - intros data Hdata.
    pose proof (reachable_nonempty _ _ _ _ _ _ _ _ _ _ _ _ _ Hreach token data Hdata) as Hne.
    assert (Hfirst : download store token = (SendFile data, delete token store)).
    { unfold download. rewrite Hdata. destruct data; [by destruct Hne|done]. }
    rewrite Hfirst. simpl. split; [done|]. split; [apply lookup_delete_eq|].
    unfold download. by rewrite lookup_delete_eq.
  - intros Hnone. unfold download. by rewrite Hnone.
Qed.

Lemma example_store_holds_token : is_Some (example_store !! "token-1").
Proof. vm_compute. by eexists. Qed.

Lemma download_exactly_once_witness :
  (forall data, example_store !! "token-1" = Some data ->
     download example_store "token-1" = (SendFile data, delete "token-1" example_store) /\
     (download example_store "token-1").2 !! "token-1" = None /\
     download (download example_store "token-1").2 "token-1"
       = (Redirect "warning" msg_expired, delete "token-1" example_store)) /\
  (example_store !! "token-1" = None ->
     download example_store "token-1" = (Redirect "warning" msg_expired, example_store)).
Proof.
  eapply download_exactly_once.
  unfold example_store. apply reachable_predict, reachable_init.
Defined.

(** C10.  [predict] changes [RESULTS_STORE] only when it renders the
    results page, and then by inserting the artifact under the token
    shown on that page; when the CSV cannot be parsed, validation fails
    or the model's [predict] raises, the response is the error redirect
    and the store is unchanged. *)
Theorem predict_store_atomic parse_number to_numeric_raises np_mean np_max np_min
    format_fixed format_thousands now render_float read_csv MODEL MODEL_PATH
    (store : gmap string bytes) (files : gmap string upload) (token : string) :
  let result :=
    predict parse_number to_numeric_raises np_mean np_max np_min
      format_fixed format_thousands now render_float read_csv MODEL MODEL_PATH
      store files token in
  match result.1 with
  | Rendered page =>
      download_token page = token /\
      exists results_df,
        result.2 = <[token := encode_utf8 (to_csv render_float results_df)]> store
  | _ => result.2 = store
  end /\
  forall file m,
    files !! "file" = Some file -> filename file <> "" -> MODEL = Some m ->
    (forall e, read_csv (stream file) = inl e ->
       result = (Redirect "danger" ("Failed to read CSV: " +:+ e), store)) /\
    (forall df, read_csv (stream file) = inr df ->
       ((validate_csv_data df).1 = false ->
        result = (Redirect "danger"
                    ("Data validation failed: " +:+ (validate_csv_data df).2), store)) /\
       (forall h features_df labels features e,
          (validate_csv_data df).1 = true ->
          prepare_data_for_prediction parse_number to_numeric_raises [df] 0%nat
            = Some (h, features_df, labels) ->
          h !! features_df = Some features ->
          model_predict m features = inl e ->
          result = (Redirect "danger" ("Model prediction failed: " +:+ e), store))).
Proof.
  intros result. split; [apply predict_store|].
  intros file m Hfile Hname HM. subst result. unfold predict.
  rewrite Hfile, decide_False, HM by done. split.
  - by intros e ->.
  - intros df ->. destruct (validate_csv_data df) as [valid msg]. simpl. split.
    + by intros ->.
    + intros h features_df labels features e -> Hprep Hf Hraise.
      simpl. rewrite Hprep, Hf.
      assert (is_Some (h !! 0%nat)) as [df' ->].
      { unfold prepare_data_for_prediction in Hprep. simpl in Hprep.
        case_decide; unfold alloc, coerce_loop in Hprep; simpl in Hprep;
          simplify_eq/=; eauto. }
      unfold run_model. by rewrite Hraise.
Qed.

(** ** The summary report *)

Lemma append_cons c (s1 s2 : string) : String c s1 +:+ s2 = String c (s1 +:+ s2).
Proof. reflexivity. Qed.

Lemma append_assoc (s1 s2 s3 : string) : (s1 +:+ s2) +:+ s3 = s1 +:+ (s2 +:+ s3).
Proof. induction s1 as [|c s1 IH]; [done|]. by rewrite !append_cons, IH. Qed.

Lemma append_empty_r (s : string) : s +:+ "" = s.
Proof. induction s as [|c s IH]; [done|]. by rewrite append_cons, IH. Qed.

Lemma foldl_append (acc : string) (l : list string) :
  foldl String.append acc l = acc +:+ foldr String.append "" l.
Proof.
  revert acc. induction l as [|x l IH]; intros acc; simpl.
  - by rewrite append_empty_r.
  - by rewrite IH, append_assoc.
Qed.

(** C7, as stated, fails for the LOW level: its report carries two
    advisory sentences, not three. *)
Lemma low_risk_report_has_two_sentences :
  (length (risk_assessment LOW) = 2%nat /\
   generate_summary_report (fun _ _ => "1.00") (fun _ => "100") "2024-01-01 00:00:00"
       low_risk_metrics "model.pkl"
     = report_head (fun _ _ => "1.00") (fun _ => "100") "2024-01-01 00:00:00"
         low_risk_metrics "model.pkl"
       +:+ "- LOW RISK: Fraud rate is below 2%. Normal operations." +:+ nl
       +:+ "- Continue with current security protocols." +:+ nl) /\
  ~ (forall m : metrics, length (risk_assessment (risk_level m)) = 3%nat).
Proof.
  split; [split; reflexivity|]. intros Hthree.
  by specialize (Hthree low_risk_metrics).
Qed.

(** C7, amended.  The report is its head followed by the advisory
    sentences of the record's risk level and, exactly when probability
    statistics are present, by the probability-analysis block with mean,
    maximum and minimum formatted to 3 decimal places.  The advisory
    sentences are fixed per level and no sentence is shared between
    levels: three for HIGH, three for MEDIUM, two for LOW. *)
Theorem report_advisory_sentences format_fixed format_thousands now
    (m : metrics) (model_path : string) :
  generate_summary_report format_fixed format_thousands now m model_path
    = report_head format_fixed format_thousands now m model_path
      +:+ foldr String.append "" (risk_assessment (risk_level m))
      +:+ match probability m with
          | Some st =>
              nl +:+ "Probability Analysis:" +:+ nl
              +:+ "- Average Fraud Probability: "
                  +:+ format_fixed 3%nat (avg_fraud_probability st) +:+ nl
              +:+ "- Maximum Fraud Probability: "
                  +:+ format_fixed 3%nat (max_fraud_probability st) +:+ nl
              +:+ "- Minimum Fraud Probability: "
                  +:+ format_fixed 3%nat (min_fraud_probability st) +:+ nl
          | None => ""
          end /\
  length (risk_assessment HIGH) = 3%nat /\
  length (risk_assessment MEDIUM) = 3%nat /\
  length (risk_assessment LOW) = 2%nat /\
  (forall l1 l2 s, s ∈ risk_assessment l1 -> s ∈ risk_assessment l2 -> l1 = l2).
Proof.
  split; [|split; [done|split; [done|split; [done|]]]].
  - unfold generate_summary_report.
    destruct (probability m) as [st|].
    + rewrite !foldl_append, append_assoc. f_equal. f_equal.
      unfold probability_analysis. simpl.
      by rewrite append_empty_r, !append_assoc.
    + by rewrite foldl_append, append_empty_r.
  - intros l1 l2 s H1 H2.
    destruct l1, l2; try done; exfalso;
      repeat (apply elem_of_cons in H1 as [->|H1]);
      try (by apply not_elem_of_nil in H1);
      repeat (apply elem_of_cons in H2 as [H2|H2]);
      try (by apply not_elem_of_nil in H2); done.
Qed.

(** ** Reading back what the CSV writer wrote *)

Module CsvFacts.
Import Csv.

Lemma special_quote : special quote = true.
Proof. reflexivity. Qed.

Lemma not_special c :
  special c = false -> c <> comma /\ c <> quote /\ c <> LF.
Proof.
  unfold special. rewrite !orb_false_iff, !bool_decide_eq_false. tauto.
Qed.

(** The characters of a field that is written without quotes and reads
    back: none of them means anything to the reader. *)
Lemma plain_chars f :
  needs_quotes f = false -> reads_back f = true ->
  Forall (fun c => c <> comma /\ c <> quote /\ c <> LF /\ c <> CR) f.
Proof.
  unfold reads_back. intros Hq. rewrite Hq. simpl. revert Hq.
  induction f as [|c f IH]; [constructor|].
  simpl. intros [Hc Hf]%orb_false_iff [Hr Hb]%negb_true_iff%orb_false_iff.
  apply bool_decide_eq_false in Hr. destruct (not_special c Hc) as (H1 & H2 & H3).
  constructor; [done|]. apply IH; [done|]. by apply negb_true_iff.
Qed.

(** An unquoted field is read up to the delimiter that follows it. *)
Lemma read_plain acc row f rest :
  Forall (fun c => c <> comma /\ c <> quote /\ c <> LF /\ c <> CR) f ->
  read_from InField acc row (f ++ rest) = read_from InField (rev f ++ acc) row rest.
Proof.
  intros Hf. revert acc. induction Hf as [|c f (H1 & H2 & H3 & H4) _ IH]; intros acc; [done|].
  simpl. rewrite !decide_False by done.
  rewrite IH. by rewrite <- app_assoc.
Qed.

(** A quoted field is read up to its closing quote. *)
Lemma read_quoted acc row f rest :
  read_from InQuoted acc row (escape f ++ quote :: rest)
  = read_from QuoteInQuoted (rev f ++ acc) row rest.
Proof.
  revert acc. induction f as [|c f IH]; intros acc; [done|].
  cbn [escape]. destruct (decide (c = quote)) as [->|Hne].
  - change (read_from InQuoted acc row ((quote :: quote :: escape f) ++ quote :: rest))
      with (read_from InQuoted (quote :: acc) row (escape f ++ quote :: rest)).
    rewrite IH. simpl rev. by rewrite <- app_assoc.
  - rewrite <- app_comm_cons. cbn [read_from]. rewrite decide_False by done.
    rewrite IH. simpl rev. by rewrite <- app_assoc.
Qed.

Lemma start_quote st row rest :
  at_start st -> read_from st [] row (quote :: rest) = read_from InQuoted [] row rest.
Proof. by intros [-> | ->]. Qed.

Lemma start_comma st row rest :
  at_start st ->
  read_from st [] row (comma :: rest) = read_from StartField [] ([] :: row) rest.
Proof. by intros [-> | ->]. Qed.

Lemma start_plain st row c rest :
  at_start st -> c <> comma /\ c <> quote /\ c <> LF /\ c <> CR ->
  read_from st [] row (c :: rest) = read_from InField [c] row rest.
Proof.
  intros Hst (H1 & H2 & H3 & H4).
  destruct Hst as [-> | ->]; cbn [read_from]; by rewrite !decide_False.
Qed.

Lemma field_comma acc row rest :
  read_from InField acc row (comma :: rest)
  = read_from StartField [] (rev acc :: row) rest.
Proof. reflexivity. Qed.

Lemma field_LF acc row rest :
  read_from InField acc row (LF :: rest)
  = cons (rev (rev acc :: row)) <$> read_from StartRecord [] [] rest.
Proof. reflexivity. Qed.

Lemma closed_comma acc row rest :
  read_from QuoteInQuoted acc row (comma :: rest)
  = read_from StartField [] (rev acc :: row) rest.
Proof. reflexivity. Qed.

Lemma closed_LF acc row rest :
  read_from QuoteInQuoted acc row (LF :: rest)
  = cons (rev (rev acc :: row)) <$> read_from StartRecord [] [] rest.
Proof. reflexivity. Qed.

Lemma empty_last_field row rest :
  read_from StartField [] row (LF :: rest)
  = cons (rev ([] :: row)) <$> read_from StartRecord [] [] rest.
Proof. reflexivity. Qed.

(** A field followed by a delimiter. *)
Lemma read_field_comma st row f rest :
  at_start st -> reads_back f = true ->
  read_from st [] row (write_field f ++ comma :: rest)
  = read_from StartField [] (f :: row) rest.
Proof.
  intros Hst Hb. unfold write_field. destruct (needs_quotes f) eqn:Hq.
  - rewrite <- app_comm_cons, <- app_assoc, start_quote by done.
    change ([quote] ++ comma :: rest) with (quote :: comma :: rest).
    by rewrite read_quoted, app_nil_r, closed_comma, rev_involutive.
  - pose proof (plain_chars f Hq Hb) as Hp.
    destruct f as [|c f]; [by apply start_comma|].
    inversion Hp as [|? ? Hc Hf]; subst.
    rewrite <- app_comm_cons, start_plain by done.
    rewrite read_plain, field_comma by done.
    by rewrite rev_app_distr, rev_involutive.
Qed.

(** A field that ends its record; the field is not an empty one at the
    start of the record. *)
Lemma read_field_LF st row f rest :
  at_start st -> st = StartField \/ write_field f <> [] -> reads_back f = true ->
  read_from st [] row (write_field f ++ LF :: rest)
  = cons (rev (f :: row)) <$> read_from StartRecord [] [] rest.
Proof.
  intros Hst Hne Hb. unfold write_field in *. destruct (needs_quotes f) eqn:Hq.
  - rewrite <- app_comm_cons, <- app_assoc, start_quote by done.
    change ([quote] ++ LF :: rest) with (quote :: LF :: rest).
    by rewrite read_quoted, app_nil_r, closed_LF, rev_involutive.
  - pose proof (plain_chars f Hq Hb) as Hp.
    destruct f as [|c f].
    + destruct Hne as [-> | Hne]; [apply empty_last_field|done].
    + inversion Hp as [|? ? Hc Hf]; subst.
      rewrite <- app_comm_cons, start_plain by done.
      rewrite read_plain, field_LF by done.
      by rewrite rev_app_distr, rev_involutive.
Qed.

(** The remaining fields of a record. *)
Lemma read_fields row fs rest :
  fs <> [] -> Forall (fun f => reads_back f = true) fs ->
  read_from StartField [] row (join_fields fs ++ LF :: rest)
  = cons (rev row ++ fs) <$> read_from StartRecord [] [] rest.
Proof.
  revert row. induction fs as [|f fs IH]; intros row Hne Hb; [done|].
  inversion Hb as [|? ? Hf Hfs]; subst.
  destruct fs as [|g fs].
  - cbn [join_fields]. by rewrite read_field_LF by (unfold at_start; auto).
  - change (join_fields (f :: g :: fs))
      with (write_field f ++ comma :: join_fields (g :: fs)).
    rewrite <- app_assoc, <- app_comm_cons.
    rewrite read_field_comma by (unfold at_start; auto).
    rewrite IH by done. simpl. by rewrite <- app_assoc.
Qed.

Lemma write_row_single c f : write_row [c :: f] = write_field (c :: f) ++ [LF].
Proof. reflexivity. Qed.

Lemma write_row_many f g fs :
  write_row (f :: g :: fs) = write_field f ++ comma :: join_fields (g :: fs) ++ [LF].
Proof.
  unfold write_row. cbn [join_fields]. rewrite <- app_assoc.
  by destruct f.
Qed.

(** One record; a record without fields is an empty line. *)
Lemma read_row fields rest :
  Forall (fun f => reads_back f = true) fields ->
  read_from StartRecord [] [] (write_row fields ++ rest)
  = cons fields <$> read_from StartRecord [] [] rest.
Proof.
  intros Hb. destruct fields as [|f fs]; [done|].
  inversion Hb as [|? ? Hf Hfs]; subst.
  destruct fs as [|g fs].
  - destruct f as [|c f]; [done|].
    rewrite write_row_single, <- app_assoc.
    change ([LF] ++ rest) with (LF :: rest).
    rewrite read_field_LF; [done|unfold at_start; auto| |done].
    right. unfold write_field. by destruct (needs_quotes _).
  - rewrite write_row_many, <- app_assoc, <- app_comm_cons.
    rewrite read_field_comma by (unfold at_start; auto).
    rewrite <- app_assoc. change ([LF] ++ rest) with (LF :: rest).
    by rewrite read_fields.
Qed.

(** A table whose fields all read back is read as it was written. *)
Lemma read_write rows :
  Forall (Forall (fun f => reads_back f = true)) rows ->
  read (write rows) = Some rows.
Proof.
  unfold read, write. induction 1 as [|r rows Hr _ IH]; [done|].
  rewrite fmap_cons. simpl concat. by rewrite read_row, IH.
Qed.

End CsvFacts.

(** ** The result artifact *)

Lemma set_column_nonempty name s (df : DataFrame) : set_column name s df <> [].
Proof. destruct df as [|[n s0] rest]; simpl; [done|]. by case_decide. Qed.

Lemma set_column_twice name s s' (df : DataFrame) :
  set_column name s' (set_column name s df) = set_column name s' df.
Proof.
  induction df as [|[n s0] rest IH]; simpl.
  - by rewrite decide_True.
  - case_decide; simpl; [by rewrite decide_True|].
    rewrite decide_False by done. by rewrite IH.
Qed.

Lemma nrows_set_column name s (df : DataFrame) :
  series_len s = nrows df -> nrows (set_column name s df) = nrows df.
Proof.
  destruct df as [|[n s0] rest]; simpl; [done|]. by case_decide.
Qed.

Lemma get_set_column_eq name s (df : DataFrame) :
  get_column name (set_column name s df) = Some s.
Proof.
  induction df as [|[n s0] rest IH]; simpl.
  - by rewrite decide_True.
  - case_decide; simpl; [by rewrite decide_True|]. by rewrite decide_False.
Qed.

Lemma get_set_column_ne name name' s (df : DataFrame) :
  name <> name' ->
  get_column name (set_column name' s df) = get_column name df.
Proof.
  intros Hne. induction df as [|[n s0] rest IH]; simpl.
  - by rewrite decide_False.
  - destruct (decide (n = name')) as [->|Hn]; simpl.
    + by rewrite !decide_False.
    + case_decide; [done|]. by apply IH.
Qed.

Lemma index_of_get_column name s (df : DataFrame) :
  get_column name df = Some s ->
  exists i, index_of name (columns df) = Some i /\ df !! i = Some (name, s).
Proof.
  unfold columns. induction df as [|[n s0] rest IH]; [done|].
  rewrite fmap_cons. simpl. case_decide as Hn.
  - intros [= ->]. exists 0%nat. by subst.
  - intros (i & -> & Hi)%IH. by exists (S i).
Qed.

Lemma lookup_all {A} (d : A) (l : list A) :
  (fun k => default d (l !! k)) <$> seq 0 (length l) = l.
Proof.
  induction l as [|x l IH]; [done|].
  simpl length. rewrite <- cons_seq, fmap_cons. simpl. f_equal.
  rewrite <- fmap_S_seq, <- list_fmap_compose. by rewrite <- IH at 2.
Qed.


Lemma build_results_spec (df : DataFrame) predictions proba :
  nrows df = length predictions ->
  (forall ps, proba = Some ps -> length ps = length predictions) ->
  exists results_df,
    build_results df predictions proba = Some results_df /\
    results_df <> [] /\
    nrows results_df = length predictions /\
    get_column "Fraud Prediction" results_df
      = Some (ObjSeries (prediction_label <$> predictions)).
Proof.
  intros Hrows Hproba. unfold build_results, assign_array.
  rewrite decide_True by done. simpl. rewrite set_column_twice.
  set (r := set_column "Fraud Prediction" (ObjSeries (prediction_label <$> predictions)) df).
  assert (Hr : nrows r = length predictions).
  { subst r. rewrite nrows_set_column; [done|]. simpl. by rewrite length_fmap. }
  assert (Hg : get_column "Fraud Prediction" r
               = Some (ObjSeries (prediction_label <$> predictions))).
  { apply get_set_column_eq. }
  destruct proba as [ps|].
  - rewrite decide_True by (simpl; rewrite Hr; by apply Hproba).
    eexists. split; [done|]. split; [apply set_column_nonempty|].
    split. { rewrite nrows_set_column; [done|]. simpl. rewrite Hr. by apply Hproba. }
    by rewrite get_set_column_ne.
  - exists r. split; [done|]. split; [apply set_column_nonempty|]. done.
Qed.

Lemma csv_safe_lookup (l : list string) (i : nat) :
  Forall csv_safe l -> csv_safe (default "" (l !! i)).
Proof.
  intros Hl. destruct (l !! i) as [x|] eqn:Hi; [|done].
  by apply (Forall_lookup_1 _ _ _ _ Hl Hi).
Qed.

Lemma parse_to_csv render_float (df : DataFrame) :
  csv_safe_table render_float df ->
  parse_csv (encode_utf8 (to_csv render_float df))
  = Some (columns df ::
          ((fun i => (fun c => default "" (render_series render_float c.2 !! i)) <$> df)
             <$> seq 0 (nrows df))).
Proof.
  intros Hsafe. unfold parse_csv, encode_utf8, to_csv.
  rewrite String.list_ascii_of_string_of_list_ascii.
  rewrite CsvFacts.read_write.
  - f_equal. simpl. f_equal.
    + unfold csv_header. rewrite map_map. rewrite <- (map_id (columns df)) at 2.
      apply map_ext. intros a. apply String.string_of_list_ascii_of_string.
    + rewrite map_map. apply map_ext. intros i. unfold csv_row.
      rewrite map_map. apply map_ext. intros c.
      apply String.string_of_list_ascii_of_string.
  - constructor.
    + unfold csv_header, columns. rewrite <- list_fmap_compose.
      apply Forall_fmap. eapply Forall_impl; [exact Hsafe|]. by intros c [Hc _].
    + apply Forall_fmap, Forall_forall. intros i _. simpl.
      unfold csv_row. apply Forall_fmap.
      eapply Forall_impl; [exact Hsafe|]. intros c [_ Hc]. simpl.
      by apply csv_safe_lookup.
Qed.

Lemma csv_column_rows name s (df : DataFrame) (rows : list nat) (render : series -> list string) :
  get_column name df = Some s ->
  csv_column name
    (columns df :: ((fun i => (fun c => default "" (render c.2 !! i)) <$> df) <$> rows))
  = Some ((fun i => default "" (render s !! i)) <$> rows).
Proof.
  intros (i & Hi & Hdf)%index_of_get_column. unfold csv_column. rewrite Hi.
  apply mapM_Some. apply Forall2_fmap, Forall_Forall2_diag, Forall_forall.
  intros k _. by rewrite list_lookup_fmap, Hdf.
Qed.

Lemma csv_safe_set_column render_float name s (df : DataFrame) :
  csv_safe name -> Forall csv_safe (render_series render_float s) ->
  csv_safe_table render_float df ->
  csv_safe_table render_float (set_column name s df).
Proof.
  intros Hname Hs. unfold csv_safe_table.
  induction 1 as [|[n s0] rest Hc Hrest IH]; simpl.
  - by repeat constructor.
  - case_decide; constructor; try done. by subst.
Qed.

Lemma csv_safe_prediction_labels render_float (predictions : list Z) :
  Forall csv_safe
    (render_series render_float (ObjSeries (prediction_label <$> predictions))).
Proof.
  simpl. rewrite <- list_fmap_compose. apply Forall_fmap, Forall_forall.
  intros p _. simpl. unfold prediction_label. by destruct (p =? 0), (p =? 1).
Qed.

(** The augmented table in closed form. *)
Lemma build_results_eq (df : DataFrame) predictions proba :
  nrows df = length predictions ->
  (forall ps, proba = Some ps -> length ps = length predictions) ->
  build_results df predictions proba
  = Some (let results_df :=
            set_column "Fraud Prediction"
              (ObjSeries (prediction_label <$> predictions)) df in
          match proba with
          | Some ps => set_column "Fraud Probability" (FloatSeries ps) results_df
          | None => results_df
          end).
Proof.
  intros Hrows Hproba. unfold build_results, assign_array.
  rewrite decide_True by done. simpl. rewrite set_column_twice.
  destruct proba as [ps|]; [|done].
  rewrite decide_True; [done|]. simpl.
  rewrite nrows_set_column by (simpl; by rewrite length_fmap).
  rewrite Hrows. by apply Hproba.
Qed.

(** The augmented table of a table that reads back reads back too. *)
Lemma build_results_safe render_float (df : DataFrame) predictions proba results_df :
  csv_safe_table render_float df ->
  (forall x, csv_safe (render_float x)) ->
  nrows df = length predictions ->
  (forall ps, proba = Some ps -> length ps = length predictions) ->
  build_results df predictions proba = Some results_df ->
  csv_safe_table render_float results_df.
Proof.
  intros Hdf Hfloat Hrows Hproba. rewrite build_results_eq by done.
  intros [= <-]. cbv zeta.
  assert (csv_safe_table render_float
            (set_column "Fraud Prediction"
               (ObjSeries (prediction_label <$> predictions)) df)) as Hr.
  { apply csv_safe_set_column; [done|apply csv_safe_prediction_labels|done]. }
  destruct proba as [ps|]; [|done].
  apply csv_safe_set_column; [done| |done].
  simpl. apply Forall_fmap, Forall_forall. intros x _. simpl.
  unfold render_num. destruct (F64.is_nan x); [done|apply Hfloat].
Qed.




(** * Further properties of the code *)

(** ** Validation *)

Lemma list_filter_fmap_fst {A B} (f : A -> B) (P : B -> Prop)
    `{!forall x, Decision (P x)} (l : list A) :
  filter P (f <$> l) = f <$> filter (fun x => P (f x)) l.
Proof.
  induction l as [|x l IH]; [done|].
  rewrite fmap_cons, !filter_cons. simpl.
  destruct (decide (P (f x))); by rewrite ?fmap_cons, IH.
Qed.

Lemma columns_schema (df : DataFrame) : columns df = (schema df).*1.
Proof. unfold columns, schema. by rewrite <- list_fmap_compose. Qed.

Lemma numeric_columns_schema (df : DataFrame) :
  numeric_columns df = (filter (fun p => p.2 = true) (schema df)).*1.
Proof.
  unfold numeric_columns, columns, schema.
  rewrite (list_filter_fmap_fst _ (fun p : string * bool => p.2 = true)).
  by rewrite <- list_fmap_compose.
Qed.

(** X1.  A table with fewer than 2^52 columns is accepted exactly when it
    has at least 5 columns, at least 8 of the 28 canonical feature names
    and at least 80% numeric-typed columns; the message is then "Data
    validation passed". *)
Theorem validate_csv_data_accepts_iff (data : DataFrame) :
  len (columns data) < 2 ^ 52 ->
  ((validate_csv_data data).1 = true <->
     5 <= len (columns data) /\
     8 <= len (filter (fun col => col ∈ columns data) expected_features) /\
     4 * len (columns data) <= 5 * len (numeric_columns data)) /\
  ((validate_csv_data data).1 = true -> (validate_csv_data data).2 = msg_passed).
Proof.
  intros Hbound.
  pose proof (missing_features_count data) as Hmiss.
  pose proof (numeric_columns_count data) as Hnum.
  unfold validate_csv_data.
  destruct (Z.ltb_spec (len (columns data)) 5); [simpl; split; [split|]; [done|lia|done]|].
  destruct (Z.ltb_spec 20 (len (missing_features data)));
    [simpl; split; [split|]; [done|lia|done]|].
  rewrite lt_times_0_8 by lia.
  case_bool_decide; simpl; (split; [split|]); try done; lia.
Qed.

Lemma validate_csv_data_accepts_iff_witness :
  len (columns example_upload_table) < 2 ^ 52 /\
  ((validate_csv_data example_upload_table).1 = true <->
     5 <= len (columns example_upload_table) /\
     8 <= len (filter (fun col => col ∈ columns example_upload_table) expected_features) /\
     4 * len (columns example_upload_table) <= 5 * len (numeric_columns example_upload_table)).
Proof.
  assert (H : len (columns example_upload_table) < 2 ^ 52) by (by vm_compute).
  split; [exact H|]. apply (proj1 (validate_csv_data_accepts_iff example_upload_table H)).
Defined.

(** X2.  Validation reads only the column labels and dtypes: two tables
    with the same schema get the same verdict and message, whatever
    their rows hold (a table without rows included). *)
Theorem validate_csv_data_schema_only (data data' : DataFrame) :
  schema data = schema data' ->
  validate_csv_data data = validate_csv_data data'.
Proof.
  intros Hs. unfold validate_csv_data, missing_features.
  by rewrite !numeric_columns_schema, !columns_schema, Hs.
Qed.

Lemma validate_csv_data_schema_only_witness :
  validate_csv_data example_upload_table
  = validate_csv_data ((fun c : string * series => (c.1, IntSeries [])) <$> example_upload_table).
Proof. apply validate_csv_data_schema_only. reflexivity. Defined.

(** ** Risk metrics *)

Lemma count_eq_sum_le (l : list Z) : count_eq 1 l + count_eq 0 l <= len l.
Proof.
  unfold len. induction l as [|p ps IH]; simpl count_eq; [simpl; lia|].
  rewrite length_cons, Nat2Z.inj_succ.
  destruct (Z.eqb_spec p 1), (Z.eqb_spec p 0); lia.
Qed.

Lemma count_eq_sum_full (l : list Z) :
  count_eq 1 l + count_eq 0 l = len l -> Forall (fun p => p = 0 \/ p = 1) l.
Proof.
  unfold len. induction l as [|p ps IH]; [constructor|].
  simpl count_eq. rewrite length_cons, Nat2Z.inj_succ.
  pose proof (count_eq_sum_le ps) as Hle. unfold len in Hle.
  destruct (Z.eqb_spec p 1), (Z.eqb_spec p 0); intros Hs;
    try lia; constructor; auto; apply IH; lia.
Qed.

(** X3.  For any integer predictions the two counts never exceed the
    total together, and they add up to the total exactly when every
    entry is 0 or 1: any other label is counted in the total only. *)
Theorem counts_cover_only_binary_labels np_mean np_max np_min predictions probabilities m :
  calculate_risk_metrics np_mean np_max np_min predictions probabilities = Some m ->
  0 <= fraud_count m /\ 0 <= legitimate_count m /\
  fraud_count m + legitimate_count m <= total_transactions m /\
  (fraud_count m + legitimate_count m = total_transactions m <->
     Forall (fun p => p = 0 \/ p = 1) predictions).
Proof.
  intros Hm.
  destruct (calculate_risk_metrics_fields _ _ _ _ _ _ Hm) as (-> & -> & -> & _).
  pose proof (count_eq_bounds 1 predictions).
  pose proof (count_eq_bounds 0 predictions).
  pose proof (count_eq_sum_le predictions).
  repeat split; try lia.
  - apply count_eq_sum_full.
  - apply count_eq_binary.
Qed.

Lemma counts_cover_only_binary_labels_witness :
  exists m,
    calculate_risk_metrics (fun _ => F64.zero) (fun _ => F64.zero) (fun _ => F64.zero)
      [1; -1; 0] None = Some m /\
    0 <= fraud_count m /\ 0 <= legitimate_count m /\
    fraud_count m + legitimate_count m <= total_transactions m /\
    (fraud_count m + legitimate_count m = total_transactions m <->
       Forall (fun p => p = 0 \/ p = 1) [1; -1; 0]).
Proof.
  eexists. split; [reflexivity|].
  apply (counts_cover_only_binary_labels
           (fun _ => F64.zero) (fun _ => F64.zero) (fun _ => F64.zero)
           [1; -1; 0] None).
  reflexivity.
Defined.

Lemma count_eq_none v (l : list Z) : Forall (fun p => p <> v) l -> count_eq v l = 0.
Proof.
  induction 1 as [|p ps Hp _ IH]; [done|]. simpl.
  destruct (Z.eqb_spec p v); [done|lia].
Qed.

Lemma count_eq_all v (l : list Z) : Forall (fun p => p = v) l -> count_eq v l = len l.
Proof.
  unfold len. induction 1 as [|p ps -> _ IH]; [done|]. simpl count_eq.
  rewrite Z.eqb_refl, length_cons, Nat2Z.inj_succ. lia.
Qed.

(** A positive integer divided by itself is exactly 1.0. *)
Lemma div_self n : 0 < n < 2 ^ 1023 -> F64.div (F64.of_int n) (F64.of_int n) = F64.of_int 1.
Proof.
  intros Hn. destruct (of_int_finite n Hn) as (m & e & -> & _).
  unfold F64.div, SFdiv, SFdiv_core_binary, F64.prec, F64.emax.
  replace (Zdigits2 (Z.pos m) + e - (Zdigits2 (Z.pos m) + e)) with 0 by lia.
  replace (e - e) with 0 by lia.
  change (Z.min (fexp 53 1024 0) 0) with (-53).
  change (0 - -53) with 53. cbv iota.
  assert (Hdiv : Z.div_eucl (Z.shiftl (Z.pos m) 53) (Z.pos m) = (2 ^ 53, 0)).
  { rewrite Z.shiftl_mul_pow2 by lia.
    pose proof (Z.div_mul (2 ^ 53) (Z.pos m) ltac:(lia)) as Hq.
    pose proof (Z.mod_mul (2 ^ 53) (Z.pos m) ltac:(lia)) as Hr.
    rewrite (Z.mul_comm (2 ^ 53)) in Hq, Hr.
    unfold Z.div, Z.modulo in Hq, Hr.
    rewrite (Z.mul_comm (Z.pos m)).
    rewrite (Z.mul_comm (2 ^ 53)).
    destruct (Z.div_eucl _ _) as [q r]. simpl in *. by subst. }
  rewrite Hdiv.
  replace (new_location (Z.pos m) 0) with loc_Exact; [done|].
  unfold new_location, new_location_even, new_location_odd.
  by destruct (Z.even _).
Qed.

(** X4.  For a non-empty array (below the size limit of 2^63): when no
    prediction is 1 the fraud rate is exactly +0.0 and the level LOW;
    when every prediction is 1 the fraud rate is exactly 100.0 and the
    level HIGH. *)
Theorem fraud_rate_extremes np_mean np_max np_min predictions probabilities m :
  0 < len predictions < 2 ^ 63 ->
  calculate_risk_metrics np_mean np_max np_min predictions probabilities = Some m ->
  (Forall (fun p => p <> 1) predictions ->
     fraud_rate m = S754_zero false /\ risk_level m = LOW) /\
  (Forall (fun p => p = 1) predictions ->
     fraud_rate m = F64.of_int 100 /\ risk_level m = HIGH).
Proof.
  intros Hlen Hm.
  destruct (calculate_risk_metrics_fields _ _ _ _ _ _ Hm) as (_ & _ & _ & Hr & Hl).
  assert (2 ^ 63 < 2 ^ 1023) by (by apply Z.pow_lt_mono_r).
  split; intros Hall.
  - assert (fraud_rate m = S754_zero false) as Hz.
    { rewrite Hr, (count_eq_none 1) by done. unfold compute_fraud_rate.
      destruct (of_int_finite (len predictions)) as (mt & et & -> & _); [lia|]. done. }
    by rewrite Hl, Hz.
  - assert (fraud_rate m = F64.of_int 100) as Hz.
    { rewrite Hr, (count_eq_all 1) by done. unfold compute_fraud_rate.
      rewrite div_self by lia. by vm_compute. }
    by rewrite Hl, Hz.
Qed.

Lemma fraud_rate_extremes_witness :
  exists m,
    calculate_risk_metrics (fun _ => F64.zero) (fun _ => F64.zero) (fun _ => F64.zero)
      [1; 1; 1] None = Some m /\
    (Forall (fun p => p <> 1) [1; 1; 1] ->
       fraud_rate m = S754_zero false /\ risk_level m = LOW) /\
    (Forall (fun p => p = 1) [1; 1; 1] ->
       fraud_rate m = F64.of_int 100 /\ risk_level m = HIGH).
Proof.
  eexists. split; [reflexivity|].
  apply (fraud_rate_extremes (fun _ => F64.zero) (fun _ => F64.zero) (fun _ => F64.zero)
           [1; 1; 1] None); [by vm_compute|reflexivity].
Defined.

(** X5.  The call fails exactly when it is given an empty probability
    array (the maximum of an empty array is undefined); otherwise it
    returns a record, which carries the three probability statistics
    exactly when a probability array was passed. *)
Theorem calculate_risk_metrics_failure np_mean np_max np_min predictions probabilities :
  (calculate_risk_metrics np_mean np_max np_min predictions probabilities = None <->
     probabilities = Some []) /\
  (forall m,
     calculate_risk_metrics np_mean np_max np_min predictions probabilities = Some m ->
     (is_Some (probability m) <-> is_Some probabilities) /\
     (forall ps, probabilities = Some ps ->
        probability m = Some {| avg_fraud_probability := np_mean ps;
                                max_fraud_probability := np_max ps;
                                min_fraud_probability := np_min ps |})).
Proof.
  unfold calculate_risk_metrics. destruct (classify _) as [level icon].
  destruct probabilities as [[|p ps]|]; simpl; split;
    try (split; [done|]; intros; done);
    try (split; done);
    intros m [= <-]; simpl; split;
    try (split; intros [? ?]; by eauto);
    try (by intros ? [= <-]); try done.
Qed.

(** ** Feature preparation *)

Section PrepareMore.

Variable parse_number : string -> option float64.
Variable to_numeric_raises : list cell -> bool.

Local Abbreviation coerce_series' := (coerce_series parse_number to_numeric_raises).
Local Abbreviation coerce_all' := (coerce_all parse_number to_numeric_raises).
Local Abbreviation prepare' := (prepare_data_for_prediction parse_number to_numeric_raises).

(** The returned features, the labels and what is left in the argument. *)
Lemma prepare_result (h : heap) (data : loc) (df : DataFrame) :
  h !! data = Some df -> NoDup (columns df) ->
  exists h' features_df,
    prepare' h data = Some (h', features_df, get_column "Class" df) /\
    h' !! features_df = Some (fillna (coerce_all' (drop_column "Class" df))) /\
    h' !! data = Some (if decide ("Class" ∈ columns df) then df else coerce_all' df) /\
    (length h <= features_df)%nat.
Proof.
  intros Hdata Hnd. rewrite (prepare_spec _ _ h data df Hdata Hnd).
  pose proof (lookup_lt_Some _ _ _ Hdata) as Hlt.
  case_decide as Hclass.
  - do 2 eexists. split; [reflexivity|].
    split. { rewrite app_assoc. by apply list_lookup_middle; rewrite length_app, Nat.add_1_r. }
    split; [by rewrite lookup_app_l|lia].
  - rewrite (get_column_absent _ _ Hclass), (drop_column_absent _ _ Hclass).
    do 2 eexists. split; [reflexivity|].
    split. { by apply list_lookup_middle; rewrite length_insert. }
    split; [|lia]. rewrite lookup_app_l by (by rewrite length_insert).
    by apply list_lookup_insert_eq.
Qed.

Lemma series_len_coerce_series s : series_len (coerce_series' s) = series_len s.
Proof.
  unfold coerce_series. destruct s as [zs|xs|bs|cs]; try done. simpl.
  destruct (to_numeric_raises cs); simpl; by rewrite ?length_fmap, ?length_replicate.
Qed.

Lemma series_len_fillna_series s : series_len (fillna_series s) = series_len s.
Proof. destruct s; simpl; by rewrite ?length_fmap. Qed.

Lemma coerce_series_clean s : is_numeric_dtype s = true -> coerce_series' s = s.
Proof. intros Hs. unfold coerce_series. by rewrite Hs. Qed.

Lemma fillna_series_clean_id s : has_missing s = false -> fillna_series s = s.
Proof.
  destruct s as [zs|xs|bs|cs]; try done; simpl; intros Hs; f_equal.
  - induction xs as [|x xs IH]; [done|]. simpl in Hs.
    apply orb_false_iff in Hs as [Hx Hxs]. by rewrite fmap_cons, Hx, IH.
  - induction cs as [|c cs IH]; [done|]. simpl in Hs.
    apply orb_false_iff in Hs as [Hc Hcs].
    rewrite fmap_cons, IH by done. unfold fillna_cell. by rewrite Hc.
Qed.

Lemma prepared_clean_id (df : DataFrame) :
  Forall (fun c => clean_series c.2) df -> fillna (coerce_all' df) = df /\ coerce_all' df = df.
Proof.
  intros Hclean. assert (Hc : coerce_all' df = df).
  { unfold coerce_all. rewrite <- (list_fmap_id df) at 2.
    apply Forall_fmap_ext_1. eapply Forall_impl; [exact Hclean|].
    intros [n s] [Hnum _]. simpl in *. by rewrite coerce_series_clean. }
  split; [|done]. rewrite Hc. unfold fillna. rewrite <- (list_fmap_id df) at 2.
  apply Forall_fmap_ext_1. eapply Forall_impl; [exact Hclean|].
  intros [n s] [_ Hmiss]. simpl in *. by rewrite fillna_series_clean_id.
Qed.

End PrepareMore.

(** X6.  Preparation keeps the shape of the table: the feature columns
    are the input columns other than 'Class', in the same order, and each
    has as many rows as before. *)
Theorem prepare_preserves_shape parse_number to_numeric_raises
    (h : heap) (data : loc) (df : DataFrame) :
  h !! data = Some df -> NoDup (columns df) ->
  exists h' features_df labels features,
    prepare_data_for_prediction parse_number to_numeric_raises h data
      = Some (h', features_df, labels) /\
    h' !! features_df = Some features /\
    (fun c => (c.1, series_len c.2)) <$> features
      = (fun c => (c.1, series_len c.2)) <$> drop_column "Class" df /\
    nrows features = nrows (drop_column "Class" df).
Proof.
  intros Hdata Hnd.
  destruct (prepare_result parse_number to_numeric_raises h data df Hdata Hnd)
    as (h' & f & Hprep & Hf & _).
  do 4 eexists. split; [exact Hprep|]. split; [exact Hf|].
  assert (Hlen : forall s, series_len (fillna_series
             (coerce_series parse_number to_numeric_raises s)) = series_len s).
  { intros s. by rewrite series_len_fillna_series, series_len_coerce_series. }
  split.
  - unfold fillna, coerce_all. rewrite <- !list_fmap_compose.
    apply list_fmap_ext. intros i [n s] _. simpl. by rewrite Hlen.
  - destruct (drop_column "Class" df) as [|[n s] rest]; [done|]. simpl. apply Hlen.
Qed.

Lemma prepare_preserves_shape_witness :
  exists h' features_df labels features,
    prepare_data_for_prediction (fun _ => None) (fun _ => false) [example_table] 0%nat
      = Some (h', features_df, labels) /\
    h' !! features_df = Some features /\
    (fun c => (c.1, series_len c.2)) <$> features
      = (fun c => (c.1, series_len c.2)) <$> drop_column "Class" example_table /\
    nrows features = nrows (drop_column "Class" example_table).
Proof.
  apply (prepare_preserves_shape (fun _ => None) (fun _ => false)
           [example_table] 0%nat example_table).
  - reflexivity.
  - apply (bool_decide_unpack (NoDup _)). vm_compute. exact I.
Defined.

(** X7.  A table whose columns are all numeric and free of missing
    values passes through unchanged: the features hold the input columns
    other than 'Class' with the same values, and the caller's table keeps
    its contents. *)
Theorem prepare_clean_table_unchanged parse_number to_numeric_raises
    (h : heap) (data : loc) (df : DataFrame) :
  h !! data = Some df -> NoDup (columns df) ->
  Forall (fun c => clean_series c.2) df ->
  exists h' features_df labels,
    prepare_data_for_prediction parse_number to_numeric_raises h data
      = Some (h', features_df, labels) /\
    h' !! features_df = Some (drop_column "Class" df) /\
    h' !! data = Some df.
Proof.
  intros Hdata Hnd Hclean.
  destruct (prepare_result parse_number to_numeric_raises h data df Hdata Hnd)
    as (h' & f & Hprep & Hf & Hd & _).
  do 3 eexists. split; [exact Hprep|].
  assert (Hdrop : Forall (fun c : string * series => clean_series c.2)
                         (drop_column "Class" df)).
  { apply Forall_forall. intros c [_ Hc]%list_elem_of_filter.
    by apply (proj1 (Forall_forall _ _) Hclean). }
  destruct (prepared_clean_id parse_number to_numeric_raises _ Hdrop) as [Hid _].
  destruct (prepared_clean_id parse_number to_numeric_raises _ Hclean) as [_ Hid'].
  rewrite Hid in Hf. rewrite Hid' in Hd. split; [done|]. by case_decide.
Qed.

Lemma prepare_clean_table_unchanged_witness :
  exists h' features_df labels,
    prepare_data_for_prediction (fun _ => None) (fun _ => false)
      [example_upload_table] 0%nat = Some (h', features_df, labels) /\
    h' !! features_df = Some (drop_column "Class" example_upload_table) /\
    h' !! 0%nat = Some example_upload_table.
Proof.
  apply (prepare_clean_table_unchanged (fun _ => None) (fun _ => false)
           [example_upload_table] 0%nat example_upload_table).
  - reflexivity.
  - apply (bool_decide_unpack (NoDup _)). vm_compute. exact I.
  - unfold example_upload_table. apply Forall_fmap, Forall_forall. by intros i _.
Defined.

(** X8.  Preparation is idempotent on contents: preparing the returned
    features table again returns a table with the same columns and
    values, and no labels. *)
Theorem prepare_idempotent parse_number to_numeric_raises
    (h : heap) (data : loc) (df : DataFrame) :
  h !! data = Some df -> NoDup (columns df) ->
  exists h1 f1 labels features,
    prepare_data_for_prediction parse_number to_numeric_raises h data
      = Some (h1, f1, labels) /\
    h1 !! f1 = Some features /\
    exists h2 f2,
      prepare_data_for_prediction parse_number to_numeric_raises h1 f1
        = Some (h2, f2, None) /\
      h2 !! f2 = Some features.
Proof.
  intros Hdata Hnd.
  destruct (prepare_result parse_number to_numeric_raises h data df Hdata Hnd)
    as (h1 & f1 & Hprep & Hf & _).
  set (features := fillna (coerce_all parse_number to_numeric_raises
                             (drop_column "Class" df))) in *.
  assert (Hcols : columns features = filter (fun n => n <> "Class") (columns df)).
  { subst features. rewrite columns_prepared. apply columns_drop_column. }
  assert (Hnd' : NoDup (columns features)) by (rewrite Hcols; by apply NoDup_filter).
  assert (Hnot : "Class" ∉ columns features).
  { rewrite Hcols. intros [? _]%list_elem_of_filter. done. }
  assert (Hclean : Forall (fun c : string * series => clean_series c.2) features).
  { apply prepared_columns_clean. }
  destruct (prepare_result parse_number to_numeric_raises h1 f1 features Hf Hnd')
    as (h2 & f2 & Hprep2 & Hf2 & _).
  rewrite (get_column_absent _ _ Hnot) in Hprep2.
  rewrite (drop_column_absent _ _ Hnot) in Hf2.
  destruct (prepared_clean_id parse_number to_numeric_raises _ Hclean) as [Hid _].
  rewrite Hid in Hf2.
  exists h1, f1, (get_column "Class" df), features.
  split; [done|]. split; [done|]. by exists h2, f2.
Qed.

Lemma prepare_idempotent_witness :
  exists h1 f1 labels features,
    prepare_data_for_prediction (fun _ => None) (fun _ => false) [example_table] 0%nat
      = Some (h1, f1, labels) /\
    h1 !! f1 = Some features /\
    exists h2 f2,
      prepare_data_for_prediction (fun _ => None) (fun _ => false) h1 f1
        = Some (h2, f2, None) /\
      h2 !! f2 = Some features.
Proof.
  apply (prepare_idempotent (fun _ => None) (fun _ => false)
           [example_table] 0%nat example_table).
  - reflexivity.
  - apply (bool_decide_unpack (NoDup _)). vm_compute. exact I.
Defined.

(** ** The augmented table and its CSV text *)

Lemma set_column_fresh name s (df : DataFrame) :
  name ∉ columns df -> set_column name s df = df ++ [(name, s)].
Proof.
  unfold columns. induction df as [|[n s0] rest IH]; [done|].
  rewrite fmap_cons, not_elem_of_cons. cbn [fst]. intros [Hne Hnot]. simpl.
  rewrite decide_False by done. by rewrite IH.
Qed.

Lemma columns_set_column_present name s (df : DataFrame) :
  name ∈ columns df -> columns (set_column name s df) = columns df.
Proof.
  unfold columns. induction df as [|[n s0] rest IH].
  - by intros ?%not_elem_of_nil.
  - rewrite fmap_cons. cbn [fst]. intros Hin. simpl.
    destruct (decide (n = name)) as [->|Hne]; [done|].
    rewrite fmap_cons. cbn [fst]. f_equal. apply IH.
    apply elem_of_cons in Hin as [?|?]; [congruence|done].
Qed.

(** Assigning a column of a table with distinct labels, in closed form. *)
Lemma set_column_closed name s (df : DataFrame) :
  NoDup (columns df) ->
  set_column name s df
  = ((fun c : string * series => if decide (c.1 = name) then (c.1, s) else c) <$> df)
    ++ (if decide (name ∈ columns df) then [] else [(name, s)]).
Proof.
  unfold columns. induction df as [|[n s0] rest IH]; [done|].
  rewrite !fmap_cons. cbn [fst]. intros [Hn Hrest]%NoDup_cons. simpl.
  destruct (decide (n = name)) as [->|Hne].
  - rewrite decide_True by left. rewrite app_nil_r. f_equal.
    rewrite <- (list_fmap_id rest) at 1. apply list_fmap_ext.
    intros i [n' s'] Hi. simpl. rewrite decide_False; [done|]. intros ->.
    apply Hn. apply (list_elem_of_fmap_2 fst rest (name, s')).
    by eapply list_elem_of_lookup_2.
  - rewrite IH by done. simpl. f_equal. f_equal.
    destruct (decide (name ∈ rest.*1)) as [Hin|Hnot].
    + by rewrite decide_True by by right.
    + rewrite decide_False; [done|]. intros [?|?]%elem_of_cons; by subst.
Qed.

Lemma columns_set_column name s (df : DataFrame) :
  columns (set_column name s df)
  = columns df ++ (if decide (name ∈ columns df) then [] else [name]).
Proof.
  destruct (decide (name ∈ columns df)) as [Hin|Hnot].
  - by rewrite columns_set_column_present, app_nil_r.
  - rewrite set_column_fresh by done. unfold columns. by rewrite fmap_app.
Qed.

(** X9.  For a table with distinct labels, one prediction per row and,
    when there are probabilities, one per row: the augmented table is
    the uploaded table, column by column in the same order, in which a
    column already called "Fraud Prediction" has its values replaced by
    the mapped labels where it stands, a column already called
    "Fraud Probability" has its values replaced by the probabilities
    when there are any, and every other column keeps its values;
    followed by "Fraud Prediction" and then, when there are
    probabilities, "Fraud Probability" as new last columns, each only
    when the upload had no column of that name. *)
Theorem build_results_layout (df : DataFrame) predictions proba :
  NoDup (columns df) ->
  nrows df = length predictions ->
  (forall ps, proba = Some ps -> length ps = length predictions) ->
  build_results df predictions proba
  = Some
      (((fun c : string * series =>
           if decide (c.1 = "Fraud Prediction")
           then (c.1, ObjSeries (prediction_label <$> predictions))
           else match proba with
                | Some ps =>
                    if decide (c.1 = "Fraud Probability") then (c.1, FloatSeries ps)
                    else c
                | None => c
                end) <$> df)
       ++ (if decide ("Fraud Prediction" ∈ columns df) then []
           else [("Fraud Prediction", ObjSeries (prediction_label <$> predictions))])
       ++ match proba with
          | Some ps =>
              if decide ("Fraud Probability" ∈ columns df) then []
              else [("Fraud Probability", FloatSeries ps)]
          | None => []
          end).
Proof.
  intros Hnd Hrows Hproba. rewrite build_results_eq by done. cbv zeta. f_equal.
  set (labels := ObjSeries (prediction_label <$> predictions)).
  destruct proba as [ps|].
  - assert (Hnd' : NoDup (columns (set_column "Fraud Prediction" labels df))).
    { rewrite columns_set_column. case_decide; [by rewrite app_nil_r|].
      apply NoDup_app. split; [done|]. split; [|apply NoDup_singleton].
      intros x Hx ->%list_elem_of_singleton. done. }
    rewrite (set_column_closed "Fraud Probability") by done.
    rewrite columns_set_column, (set_column_closed "Fraud Prediction") by done.
    rewrite fmap_app, <- list_fmap_compose, <- app_assoc. f_equal.
    { apply list_fmap_ext. intros i [n s0] _. simpl.
      destruct (decide (n = "Fraud Prediction")) as [->|Hn]; simpl; [done|].
      by destruct (decide (n = "Fraud Probability")). }
    f_equal.
    { by destruct (decide ("Fraud Prediction" ∈ columns df)). }
    destruct (decide ("Fraud Probability" ∈ columns df)) as [Hin|Hnot].
    + rewrite decide_True; [done|]. apply elem_of_app. by left.
    + rewrite decide_False; [done|]. intros [?|Hin]%elem_of_app; [done|].
      destruct (decide ("Fraud Prediction" ∈ columns df)).
      * by apply not_elem_of_nil in Hin.
      * by apply list_elem_of_singleton in Hin.
  - rewrite app_nil_r. by apply set_column_closed.
Qed.

Lemma build_results_layout_witness :
  build_results example_relabelled [1; 0] (Some [F64.zero; F64.of_int 1])
  = Some
      (((fun c : string * series =>
           if decide (c.1 = "Fraud Prediction")
           then (c.1, ObjSeries (prediction_label <$> [1; 0]))
           else if decide (c.1 = "Fraud Probability")
                then (c.1, FloatSeries [F64.zero; F64.of_int 1])
                else c) <$> example_relabelled)
       ++ (if decide ("Fraud Prediction" ∈ columns example_relabelled) then []
           else [("Fraud Prediction", ObjSeries (prediction_label <$> [1; 0]))])
       ++ (if decide ("Fraud Probability" ∈ columns example_relabelled) then []
           else [("Fraud Probability", FloatSeries [F64.zero; F64.of_int 1])])).
Proof.
  apply (build_results_layout example_relabelled [1; 0] (Some [F64.zero; F64.of_int 1])).
  - apply (bool_decide_unpack (NoDup _)). vm_compute. exact I.
  - reflexivity.
  - by intros ps [= <-].
Defined.

(** X10.  For any integer predictions, one per row of a table none of
    whose labels and written cells holds a carriage return unless it is
    written in quotes, re-parsing the output CSV gives under
    "Fraud Prediction", row by row: Legitimate for 0, Fraudulent for 1
    and an empty field for every other value. *)
Theorem prediction_column_text render_float (df : DataFrame)
    (predictions : list Z) (proba : option (list float64)) :
  csv_safe_table render_float df ->
  (forall x, csv_safe (render_float x)) ->
  nrows df = length predictions ->
  (forall ps, proba = Some ps -> length ps = length predictions) ->
  exists csv_bytes table,
    encode_results render_float df predictions proba = Some csv_bytes /\
    parse_csv csv_bytes = Some table /\
    csv_column "Fraud Prediction" table
      = Some ((fun p : Z => if p =? 0 then label_legitimate
                            else if p =? 1 then label_fraudulent else "")
                <$> predictions).
Proof.
  intros Hsafe Hfloat Hrows Hproba.
  destruct (build_results_spec df predictions proba Hrows Hproba)
    as (results_df & Hbuild & Hne & Hn & Hget).
  pose proof (build_results_safe _ _ _ _ _ Hsafe Hfloat Hrows Hproba Hbuild) as Hres.
  unfold encode_results. rewrite Hbuild. simpl.
  do 2 eexists. split; [done|]. split; [by apply parse_to_csv|].
  rewrite (csv_column_rows _ _ _ _ (render_series render_float) Hget).
  f_equal. rewrite Hn. simpl render_series.
  rewrite <- (length_fmap (render_cell render_float ∘ prediction_label) predictions).
  rewrite <- list_fmap_compose, lookup_all.
  apply list_fmap_ext. intros i p _. simpl. unfold prediction_label.
  by destruct (p =? 0), (p =? 1).
Qed.

Lemma prediction_column_text_witness :
  exists csv_bytes table,
    encode_results (fun _ => "0.5") example_no_class [-1; 1] None = Some csv_bytes /\
    parse_csv csv_bytes = Some table /\
    csv_column "Fraud Prediction" table
      = Some ((fun p : Z => if p =? 0 then label_legitimate
                            else if p =? 1 then label_fraudulent else "")
                <$> [-1; 1]).
Proof.
  apply prediction_column_text; [repeat constructor|by intros x|reflexivity|done].
Defined.

(** X11.  The output CSV of a table with at least one column, none of
    whose labels and written cells holds a carriage return unless it is
    written in quotes, reads back as written: parsing the text of
    [to_csv] gives the column labels as the first record and then one
    record per row, holding the rendered cell of every column in order,
    whatever commas, double quotes or line feeds the labels and cells
    contain. *)
Theorem to_csv_reads_back render_float (df : DataFrame) :
  df <> [] -> csv_safe_table render_float df ->
  exists rows,
    parse_csv (encode_utf8 (to_csv render_float df)) = Some (columns df :: rows) /\
    length rows = nrows df /\
    forall i row, rows !! i = Some row ->
      length row = length df /\
      forall j name s, df !! j = Some (name, s) ->
        row !! j = Some (default "" (render_series render_float s !! i)).
Proof.
  intros Hne Hsafe. rewrite (parse_to_csv render_float df Hsafe).
  eexists. split; [reflexivity|]. split; [by rewrite length_fmap, length_seq|].
  intros i row Hrow. apply list_lookup_fmap_Some in Hrow as (k & -> & Hk).
  apply lookup_seq in Hk as [-> _]. simpl.
  split; [by rewrite length_fmap|].
  intros j name s Hj. by rewrite list_lookup_fmap, Hj.
Qed.

Lemma to_csv_reads_back_witness :
  exists rows,
    parse_csv (encode_utf8 (to_csv (fun _ => "0.5") example_table))
      = Some (columns example_table :: rows) /\
    length rows = nrows example_table /\
    forall i row, rows !! i = Some row ->
      length row = length example_table /\
      forall j name s, example_table !! j = Some (name, s) ->
        row !! j = Some (default "" (render_series (fun _ => "0.5") s !! i)).
Proof. apply to_csv_reads_back; [done|repeat constructor]. Defined.

(** ** The handlers and the token store *)

(** X12.  A download touches no other token and never adds an entry; a
    download that is refused leaves the store as it was. *)
Theorem download_frame (store : gmap string bytes) (token : string) :
  (forall other, other <> token -> (download store token).2 !! other = store !! other) /\
  (download store token).2 ⊆ store /\
  (forall category message,
     (download store token).1 = Redirect category message ->
     (download store token).2 = store).
Proof.
  unfold download. destruct (store !! token) as [[|c data]|] eqn:E; simpl.
  - split; [done|]. split; done.
  - split; [intros other Hne; by rewrite lookup_delete_ne|].
    split; [apply delete_subseteq|done].
  - split; [done|]. split; done.
Qed.

Section HandlerFacts.

Variable parse_number : string -> option float64.
Variable to_numeric_raises : list cell -> bool.
Variable np_mean np_max np_min : list float64 -> float64.
Variable format_fixed : nat -> float64 -> string.
Variable format_thousands : Z -> string.
Variable now : string.
Variable render_float : float64 -> string.
Variable read_csv : bytes -> string + DataFrame.
Variable MODEL : option model.
Variable MODEL_PATH : option string.

Local Abbreviation predict' :=
  (predict parse_number to_numeric_raises np_mean np_max np_min
     format_fixed format_thousands now render_float read_csv MODEL MODEL_PATH).

(** Every step a request takes before the results page is rendered. *)
Lemma predict_rendered_inv store files token page :
  (predict' store files token).1 = Rendered page ->
  exists file m df0 h f labels features df predictions proba metrics results_df,
    files !! "file" = Some file /\ filename file <> "" /\ MODEL = Some m /\
    read_csv (stream file) = inr df0 /\ (validate_csv_data df0).1 = true /\
    prepare_data_for_prediction parse_number to_numeric_raises [df0] 0%nat
      = Some (h, f, labels) /\
    h !! f = Some features /\ h !! 0%nat = Some df /\
    run_model m features = inr (predictions, proba) /\
    calculate_risk_metrics np_mean np_max np_min predictions proba = Some metrics /\
    build_results df predictions proba = Some results_df /\
    page = {| page_metrics := metrics;
              row_count := Z.of_nat (nrows results_df);
              download_token := token;
              page_model_path := MODEL_PATH;
              summary := generate_summary_report format_fixed format_thousands now
                           metrics (default "Unknown" MODEL_PATH);
              right_chart := match proba with
                             | Some _ => ProbabilityHistogram
                             | None => CountBars
                             end |} /\
    (predict' store files token).2
      = <[token := encode_utf8 (to_csv render_float results_df)]> store.
Proof.
  unfold predict.
  repeat match goal with
  | |- context [match ?x with _ => _ end] =>
      lazymatch x with
      | context [match _ with _ => _ end] => fail
      | _ => destruct x eqn:?
      end
  | |- context [if ?x then _ else _] => destruct x eqn:?
  end; simpl; intros [= <-];
  repeat eexists; eauto; try done.
  all: match goal with
       | H : validate_csv_data _ = _, H' : negb _ = false |- _ =>
           rewrite H; simpl; by apply negb_false_iff in H'
       end.
Qed.

End HandlerFacts.

Lemma build_results_nrows (df : DataFrame) predictions proba results_df :
  build_results df predictions proba = Some results_df ->
  nrows results_df = length predictions /\ nrows df = length predictions.
Proof.
  unfold build_results, assign_array.
  case_decide as Hlen; [|done]. simpl in *. rewrite set_column_twice.
  assert (Hr : nrows (set_column "Fraud Prediction"
                        (ObjSeries (prediction_label <$> predictions)) df)
               = length predictions).
  { rewrite nrows_set_column; [done|]. simpl. by rewrite length_fmap. }
  destruct proba as [ps|].
  - case_decide as Hps; [|done]. intros [= <-].
    split; [|done]. by rewrite nrows_set_column.
  - by intros [= <-].
Qed.

Lemma metrics_probability_present np_mean np_max np_min predictions probabilities m :
  calculate_risk_metrics np_mean np_max np_min predictions probabilities = Some m ->
  (is_Some (probability m) <-> is_Some probabilities).
Proof.
  unfold calculate_risk_metrics. destruct (classify _) as [level icon].
  destruct probabilities as [[|p ps]|]; simpl; [done| |];
    intros [= <-]; simpl; split; intros [? ?]; by eauto.
Qed.

Lemma nrows_coerce_all parse_number to_numeric_raises (df : DataFrame) :
  nrows (coerce_all parse_number to_numeric_raises df) = nrows df.
Proof. destruct df as [|[n s] rest]; [done|]. simpl. apply series_len_coerce_series. Qed.

(** X13.  The token shown on the results page buys exactly the artifact
    of that request: downloading it right after the prediction sends the
    stored, non-empty CSV bytes, and leaves the store as it was before
    the request when the token was not in use. *)
Theorem predict_then_download parse_number to_numeric_raises np_mean np_max np_min
    format_fixed format_thousands now render_float read_csv MODEL MODEL_PATH
    (store : gmap string bytes) (files : gmap string upload) (token : string)
    (page : results_page) :
  let after :=
    predict parse_number to_numeric_raises np_mean np_max np_min
      format_fixed format_thousands now render_float read_csv MODEL MODEL_PATH
      store files token in
  after.1 = Rendered page ->
  exists data,
    data <> [] /\
    after.2 !! download_token page = Some data /\
    download after.2 (download_token page) = (SendFile data, delete token store) /\
    (store !! token = None ->
     (download after.2 (download_token page)).2 = store).
Proof.
  intros after Hpage.
  destruct (predict_rendered_inv _ _ _ _ _ _ _ _ _ _ _ _ _ _ _ _ Hpage)
    as (file & m & df0 & h & f & labels & features & df & predictions & proba
        & metrics & results_df & _ & _ & _ & _ & _ & _ & _ & _ & _ & _ & _ & -> & Hstore).
  fold after in Hstore. rewrite Hstore. simpl.
  set (data := encode_utf8 (to_csv render_float results_df)).
  assert (Hne : data <> []) by apply to_csv_nonempty.
  assert (Hdl : download (<[token:=data]> store) token = (SendFile data, delete token store)).
  { unfold download. rewrite lookup_insert_eq, delete_insert_eq.
    by destruct data. }
  exists data. split; [done|]. split; [apply lookup_insert_eq|].
  split; [done|]. intros Hnone. rewrite Hdl. simpl. by apply delete_id.
Qed.

Lemma predict_then_download_witness :
  exists page data,
    (example_predict (Some example_model) ∅ "token-1").1 = Rendered page /\
    data <> [] /\
    (example_predict (Some example_model) ∅ "token-1").2 !! download_token page = Some data /\
    download (example_predict (Some example_model) ∅ "token-1").2 (download_token page)
      = (SendFile data, delete "token-1" ∅) /\
    ((∅ : gmap string bytes) !! "token-1" = None ->
     (download (example_predict (Some example_model) ∅ "token-1").2
        (download_token page)).2 = ∅).
Proof.
  assert (exists page, (example_predict (Some example_model) ∅ "token-1").1 = Rendered page)
    as [page Hpage] by (vm_compute; by eexists).
  exists page.
  destruct (predict_then_download _ _ _ _ _ _ _ _ _ _ _ _ _ _ _ _ Hpage) as (data & H).
  exists data. by split.
Defined.

(** X14.  A prediction request never removes or changes an artifact
    stored under another token: whatever the outcome, every other token
    keeps its entry. *)
Theorem predict_keeps_other_artifacts parse_number to_numeric_raises np_mean np_max np_min
    format_fixed format_thousands now render_float read_csv MODEL MODEL_PATH
    (store : gmap string bytes) (files : gmap string upload) (token other : string) :
  other <> token ->
  (predict parse_number to_numeric_raises np_mean np_max np_min
     format_fixed format_thousands now render_float read_csv MODEL MODEL_PATH
     store files token).2 !! other = store !! other.
Proof.
  intros Hne.
  pose proof (predict_store parse_number to_numeric_raises np_mean np_max np_min
                format_fixed format_thousands now render_float read_csv MODEL MODEL_PATH
                store files token) as Hp.
  destruct (predict _ _ _ _ _ _ _ _ _ _ _ _ _ _ _).1; simpl in *;
    try (by rewrite Hp).
  destruct Hp as (_ & results_df & ->). by rewrite lookup_insert_ne.
Qed.

Lemma predict_keeps_other_artifacts_witness :
  (example_predict (Some example_model) example_store "token-2").2 !! "token-1"
  = example_store !! "token-1".
Proof. by apply predict_keeps_other_artifacts. Defined.

(** X15.  On the results page the row count equals the total of the
    metrics (one prediction per uploaded row), the token is the one under
    which the artifact was stored, and the right-hand chart is the
    probability histogram exactly when the metrics carry probability
    statistics. *)
Theorem results_page_consistent parse_number to_numeric_raises np_mean np_max np_min
    format_fixed format_thousands now render_float read_csv MODEL MODEL_PATH
    (store : gmap string bytes) (files : gmap string upload) (token : string)
    (page : results_page) :
  (predict parse_number to_numeric_raises np_mean np_max np_min
     format_fixed format_thousands now render_float read_csv MODEL MODEL_PATH
     store files token).1 = Rendered page ->
  row_count page = total_transactions (page_metrics page) /\
  download_token page = token /\
  page_model_path page = MODEL_PATH /\
  (right_chart page = ProbabilityHistogram <-> is_Some (probability (page_metrics page))) /\
  summary page
    = generate_summary_report format_fixed format_thousands now (page_metrics page)
        (default "Unknown" MODEL_PATH).
Proof.
  intros Hpage.
  destruct (predict_rendered_inv _ _ _ _ _ _ _ _ _ _ _ _ _ _ _ _ Hpage)
    as (file & m & df0 & h & f & labels & features & df & predictions & proba
        & metrics & results_df & _ & _ & _ & _ & _ & _ & _ & _ & _ & Hm & Hb & -> & _).
  simpl. destruct (build_results_nrows _ _ _ _ Hb) as [-> _].
  destruct (calculate_risk_metrics_fields _ _ _ _ _ _ Hm) as (-> & _).
  split; [done|]. split; [done|]. split; [done|]. split; [|done].
  rewrite (metrics_probability_present _ _ _ _ _ _ Hm).
  destruct proba; split; try done; by intros [? ?].
Qed.

Lemma results_page_consistent_witness :
  exists page,
    (example_predict (Some example_model) ∅ "token-1").1 = Rendered page /\
    row_count page = total_transactions (page_metrics page) /\
    download_token page = "token-1".
Proof.
  assert (exists page, (example_predict (Some example_model) ∅ "token-1").1 = Rendered page)
    as [page Hpage] by (vm_compute; by eexists).
  exists page. split; [exact Hpage|].
  destruct (results_page_consistent _ _ _ _ _ _ _ _ _ _ _ _ _ _ _ _ Hpage) as (H1 & H2 & _).
  by split.
Defined.

(** X16.  What a successful request computes, for an upload with
    distinct column labels: the classifier is run on the prepared
    features (no 'Class' column, all numeric, no missing value); the
    metrics are those of its predictions; and the stored artifact is the
    CSV of the augmented table built on the upload itself when it has a
    'Class' column, but on the upload with its non-numeric columns
    already coerced in place when it has none. *)
Theorem predict_pipeline parse_number to_numeric_raises np_mean np_max np_min
    format_fixed format_thousands now render_float read_csv MODEL MODEL_PATH
    (store : gmap string bytes) (files : gmap string upload) (token : string)
    (file : upload) (df0 : DataFrame) (page : results_page) :
  let after :=
    predict parse_number to_numeric_raises np_mean np_max np_min
      format_fixed format_thousands now render_float read_csv MODEL MODEL_PATH
      store files token in
  files !! "file" = Some file -> read_csv (stream file) = inr df0 ->
  NoDup (columns df0) ->
  after.1 = Rendered page ->
  exists m predictions proba results_df,
    MODEL = Some m /\
    run_model m (fillna (coerce_all parse_number to_numeric_raises
                           (drop_column "Class" df0)))
      = inr (predictions, proba) /\
    calculate_risk_metrics np_mean np_max np_min predictions proba
      = Some (page_metrics page) /\
    build_results
      (if decide ("Class" ∈ columns df0) then df0
       else coerce_all parse_number to_numeric_raises df0)
      predictions proba = Some results_df /\
    after.2 = <[token := encode_utf8 (to_csv render_float results_df)]> store.
Proof.
  intros after Hfile Hread Hnd Hpage.
  destruct (predict_rendered_inv _ _ _ _ _ _ _ _ _ _ _ _ _ _ _ _ Hpage)
    as (file' & m & df0' & h & f & labels & features & df & predictions & proba
        & metrics & results_df & Hfile' & _ & HM & Hread' & _ & Hprep & Hf & Hd
        & Hrun & Hm & Hb & -> & Hstore).
  rewrite Hfile in Hfile'. injection Hfile' as <-.
  rewrite Hread in Hread'. injection Hread' as <-.
  destruct (prepare_result parse_number to_numeric_raises [df0] 0%nat df0 eq_refl Hnd)
    as (h' & f' & Hprep' & Hf' & Hd' & _).
  rewrite Hprep in Hprep'. injection Hprep' as <- <- _.
  rewrite Hf in Hf'. injection Hf' as ->.
  rewrite Hd in Hd'. injection Hd' as ->.
  by exists m, predictions, proba, results_df.
Qed.

Lemma predict_pipeline_witness :
  exists page m predictions proba results_df,
    (example_predict (Some example_model) ∅ "token-1").1 = Rendered page /\
    Some example_model = Some m /\
    run_model m (fillna (coerce_all (fun _ => None) (fun _ => false)
                           (drop_column "Class" example_upload_table)))
      = inr (predictions, proba) /\
    calculate_risk_metrics (fun _ => F64.zero) (fun _ => F64.zero) (fun _ => F64.zero)
      predictions proba = Some (page_metrics page) /\
    build_results
      (if decide ("Class" ∈ columns example_upload_table) then example_upload_table
       else coerce_all (fun _ => None) (fun _ => false) example_upload_table)
      predictions proba = Some results_df /\
    (example_predict (Some example_model) ∅ "token-1").2
      = <[ "token-1" := encode_utf8 (to_csv (fun _ => "0.0") results_df)]> ∅.
Proof.
  assert (exists page, (example_predict (Some example_model) ∅ "token-1").1 = Rendered page)
    as [page Hpage] by (vm_compute; by eexists).
  exists page.
  assert (Hnd : NoDup (columns example_upload_table)).
  { apply (bool_decide_unpack (NoDup _)). vm_compute. exact I. }
  destruct (predict_pipeline (fun _ => None) (fun _ => false)
              (fun _ => F64.zero) (fun _ => F64.zero) (fun _ => F64.zero)
              (fun _ _ => "0.00") (fun _ => "0") "2024-01-01 00:00:00" (fun _ => "0.0")
              (fun _ => inr example_upload_table) (Some example_model) (Some "model.pkl")
              ∅ example_files "token-1"
              {| filename := "upload.csv"; stream := [] |} example_upload_table page
              eq_refl eq_refl Hnd Hpage)
    as (m & predictions & proba & results_df & H).
  exists m, predictions, proba, results_df. by split.
Defined.

(** X17.  Without a loaded model the service never stores anything: the
    store stays empty in every state it can reach. *)
Theorem no_model_store_stays_empty parse_number to_numeric_raises np_mean np_max np_min
    format_fixed format_thousands now render_float read_csv MODEL_PATH
    (store : gmap string bytes) :
  reachable parse_number to_numeric_raises np_mean np_max np_min
    format_fixed format_thousands now render_float read_csv None MODEL_PATH store ->
  store = ∅.
Proof.
  induction 1 as [|store files token _ ->|store token _ ->]; [done| |].
  - unfold predict. destruct (files !! "file"); [|done]. by case_decide.
  - unfold download. by rewrite lookup_empty.
Qed.

Lemma no_model_store_stays_empty_witness :
  (example_predict None ∅ "token-1").2 = ∅.
Proof.
  apply (no_model_store_stays_empty (fun _ => None) (fun _ => false)
           (fun _ => F64.zero) (fun _ => F64.zero) (fun _ => F64.zero)
           (fun _ _ => "0.00") (fun _ => "0") "2024-01-01 00:00:00" (fun _ => "0.0")
           (fun _ => inr example_upload_table) (Some "model.pkl")).
  unfold example_predict. apply reachable_predict, reachable_init.
Defined.

(** X18.  A classifier that returns a number of predictions different
    from the number of uploaded rows is not reported as a prediction
    failure: the column assignment (or, before it, the statistics of an
    empty probability array) raises outside the guarded block, the
    exception leaves the handler, and nothing is stored. *)
Theorem predict_wrong_length_uncaught parse_number to_numeric_raises np_mean np_max np_min
    format_fixed format_thousands now render_float read_csv MODEL MODEL_PATH
    (store : gmap string bytes) (files : gmap string upload) (token : string)
    (file : upload) (m : model) (df0 : DataFrame) predictions proba :
  files !! "file" = Some file -> filename file <> "" -> MODEL = Some m ->
  read_csv (stream file) = inr df0 -> (validate_csv_data df0).1 = true ->
  NoDup (columns df0) ->
  run_model m (fillna (coerce_all parse_number to_numeric_raises
                         (drop_column "Class" df0)))
    = inr (predictions, proba) ->
  length predictions <> nrows df0 ->
  predict parse_number to_numeric_raises np_mean np_max np_min
    format_fixed format_thousands now render_float read_csv MODEL MODEL_PATH
    store files token = (Uncaught, store).
Proof.
  intros Hfile Hname HM Hread Hvalid Hnd Hrun Hlen.
  destruct (prepare_result parse_number to_numeric_raises [df0] 0%nat df0 eq_refl Hnd)
    as (h & f & Hprep & Hf & Hd & _).
  unfold predict. rewrite Hfile, decide_False, HM, Hread by done.
  destruct (validate_csv_data df0) as [valid msg]. simpl in Hvalid. subst valid. simpl.
  rewrite Hprep, Hf, Hd, Hrun.
  destruct (calculate_risk_metrics np_mean np_max np_min predictions proba); [|done].
  assert (Hnone : build_results
            (if decide ("Class" ∈ columns df0) then df0
             else coerce_all parse_number to_numeric_raises df0) predictions proba = None).
  { unfold build_results, assign_array. rewrite decide_False; [done|].
    simpl. case_decide; by rewrite ?nrows_coerce_all. }
  by rewrite Hnone.
Qed.

Lemma predict_wrong_length_uncaught_witness :
  example_predict (Some example_short_model) example_store "token-2"
  = (Uncaught, example_store).
Proof.
  apply (predict_wrong_length_uncaught (fun _ => None) (fun _ => false)
           (fun _ => F64.zero) (fun _ => F64.zero) (fun _ => F64.zero)
           (fun _ _ => "0.00") (fun _ => "0") "2024-01-01 00:00:00" (fun _ => "0.0")
           (fun _ => inr example_upload_table) (Some example_short_model)
           (Some "model.pkl") example_store example_files "token-2"
           {| filename := "upload.csv"; stream := [] |} example_short_model
           example_upload_table [1] None);
    try done.
  apply (bool_decide_unpack (NoDup _)). vm_compute. exact I.
Defined.

(** ** Loading the model *)

Lemma try_path_usable path_exists joblib_load path m p :
  try_path path_exists joblib_load path = Some (m, p) <->
  p = path /\ usable_model path_exists joblib_load path m.
Proof.
  unfold try_path, usable_model.
  destruct (path_exists path) as [[]|]; [destruct (joblib_load path) as [[m'|]|]|..];
    (split; [intros ?; by simplify_eq|intros (-> & ? & ?); by simplify_eq]).
Qed.

Lemma load_model_with_fallback_some path_exists joblib_load paths m p :
  load_model_with_fallback path_exists joblib_load paths = (Some m, Some p) ->
  exists before after,
    paths = before ++ p :: after /\
    usable_model path_exists joblib_load p m /\
    Forall (fun q => forall m', ~ usable_model path_exists joblib_load q m') before.
Proof.
  induction paths as [|path rest IH]; [done|]. simpl.
  destruct (try_path path_exists joblib_load path) as [[m' p']|] eqn:Htry.
  - intros [= -> ->]. apply try_path_usable in Htry as [-> Hu].
    exists [], rest. split; [done|]. split; [done|]. constructor.
  - intros (before & after & -> & Hu & Hall)%IH.
    exists (path :: before), after. split; [done|]. split; [done|].
    constructor; [|done]. intros m' Hm'.
    assert (try_path path_exists joblib_load path = Some (m', path)) as Hs
      by by apply try_path_usable.
    congruence.
Qed.

Lemma load_model_with_fallback_none path_exists joblib_load paths :
  (load_model_with_fallback path_exists joblib_load paths).1 = None \/
  (load_model_with_fallback path_exists joblib_load paths).2 = None ->
  load_model_with_fallback path_exists joblib_load paths = (None, None) /\
  Forall (fun q => forall m', ~ usable_model path_exists joblib_load q m') paths.
Proof.
  induction paths as [|path rest IH]; [done|]. simpl.
  destruct (try_path path_exists joblib_load path) as [[m' p']|] eqn:Htry.
  - simpl. by intros [|].
  - intros [-> Hall]%IH. split; [done|]. constructor; [|done]. intros m' Hm'.
    assert (try_path path_exists joblib_load path = Some (m', path)) as Hs
      by by apply try_path_usable.
    congruence.
Qed.

(** X19.  The loader returns the classifier of the first path, in the
    order of [MODEL_PATHS], whose file exists, loads and has a [predict]
    attribute, together with that very path; later paths are not
    considered.  It returns the pair of [None]s exactly when no path is
    usable, and never a model without a path or a path without a model. *)
Theorem load_model_first_usable path_exists joblib_load (paths : list string) :
  match load_model_with_fallback path_exists joblib_load paths with
  | (Some m, Some p) =>
      exists before after,
        paths = before ++ p :: after /\
        usable_model path_exists joblib_load p m /\
        Forall (fun q => forall m', ~ usable_model path_exists joblib_load q m') before
  | (None, None) =>
      Forall (fun q => forall m', ~ usable_model path_exists joblib_load q m') paths
  | _ => False
  end.
Proof.
  destruct (load_model_with_fallback path_exists joblib_load paths) as [[m|] [p|]] eqn:Hload.
  - by apply load_model_with_fallback_some.
  - by destruct (load_model_with_fallback_none path_exists joblib_load paths)
      as [? _]; [rewrite Hload; by right|congruence].
  - by destruct (load_model_with_fallback_none path_exists joblib_load paths)
      as [? _]; [rewrite Hload; by left|congruence].
  - by destruct (load_model_with_fallback_none path_exists joblib_load paths)
      as [_ ?]; [rewrite Hload; by left|].
Qed.

(** X20.  When the globals [MODEL] and [MODEL_PATH] are what the loader
    returned, a rendered results page names one of the configured paths,
    the one the classifier was loaded from, and its report quotes that
    path: the fallback name 'Unknown' never appears. *)
Theorem page_names_loaded_model parse_number to_numeric_raises np_mean np_max np_min
    format_fixed format_thousands now render_float read_csv
    path_exists joblib_load (paths : list string)
    (store : gmap string bytes) (files : gmap string upload) (token : string)
    (page : results_page) :
  let loaded := load_model_with_fallback path_exists joblib_load paths in
  (predict parse_number to_numeric_raises np_mean np_max np_min
     format_fixed format_thousands now render_float read_csv loaded.1 loaded.2
     store files token).1 = Rendered page ->
  exists m p,
    p ∈ paths /\ usable_model path_exists joblib_load p m /\
    page_model_path page = Some p /\
    summary page
    = generate_summary_report format_fixed format_thousands now (page_metrics page) p.
Proof.
  intros loaded Hpage.
  destruct (predict_rendered_inv _ _ _ _ _ _ _ _ _ _ _ _ _ _ _ _ Hpage)
    as (file & m & df0 & h & f & labels & features & df & predictions & proba
        & metrics & results_df & _ & _ & HM & _ & _ & _ & _ & _ & _ & _ & _ & -> & _).
  destruct loaded as [M [p|]] eqn:Hload; simpl in HM; subst M.
  - destruct (load_model_with_fallback_some _ _ _ _ _ Hload)
      as (before & after & -> & Hu & _).
    exists m, p. split; [apply elem_of_app; right; left|].
    split; [done|]. by split.
  - by destruct (load_model_with_fallback_none path_exists joblib_load paths)
      as [? _]; [fold loaded; rewrite Hload; by right|fold loaded in H; congruence].
Qed.

Lemma page_names_loaded_model_witness :
  exists page m p,
    (example_predict (Some example_model) ∅ "token-1").1 = Rendered page /\
    p ∈ example_paths /\ usable_model example_exists example_load p m /\
    page_model_path page = Some p /\
    summary page
    = generate_summary_report (fun _ _ => "0.00") (fun _ => "0") "2024-01-01 00:00:00"
        (page_metrics page) p.
Proof.
  assert (exists page, (example_predict (Some example_model) ∅ "token-1").1 = Rendered page)
    as [page Hpage] by (vm_compute; by eexists).
  exists page.
  destruct (page_names_loaded_model (fun _ => None) (fun _ => false)
              (fun _ => F64.zero) (fun _ => F64.zero) (fun _ => F64.zero)
              (fun _ _ => "0.00") (fun _ => "0") "2024-01-01 00:00:00" (fun _ => "0.0")
              (fun _ => inr example_upload_table)
              example_exists example_load
              example_paths ∅ example_files "token-1" page Hpage)
    as (m & p & H).
  by exists m, p.
Defined.

(** ** The figures of the results page *)

Lemma page_figures_spec (m : metrics) (proba : option (list float64)) :
  page_figures (create_prediction_visualizations m proba)
  = Some (PieChart [legitimate_count m; fraud_count m]
            ["Legitimate"; "Fraudulent"] "Transaction Distribution",
          match proba with
          | Some p => HistogramChart p 20 "Fraud Probability Distribution"
          | None => BarChart ["Legitimate"; "Fraudulent"]
                      [legitimate_count m; fraud_count m] "Transaction Counts"
          end).
Proof.
  unfold create_prediction_visualizations, page_figures. destruct proba as [p|].
  - rewrite (lookup_insert_ne _ "counts" "distribution") by done.
    rewrite (lookup_insert_ne _ "probabilities" "distribution") by done.
    rewrite lookup_insert_eq. simpl.
    rewrite (lookup_insert_ne _ "counts" "probabilities") by done.
    rewrite lookup_insert_eq.
    rewrite decide_True by by eexists. done.
  - rewrite (lookup_insert_ne _ "counts" "distribution") by done.
    rewrite lookup_insert_eq. simpl.
    rewrite (lookup_insert_ne _ "counts" "probabilities") by done.
    rewrite (lookup_insert_ne _ "distribution" "probabilities") by done.
    rewrite lookup_empty.
    rewrite decide_False by (by intros [? ?]).
    by rewrite lookup_insert_eq.
Qed.

(** X21.  Whatever the metrics, the figures the handler looks up are
    always there: the left one is the pie of the legitimate and fraud
    counts; the right one is the 20-bin histogram of the probabilities
    when the classifier gave probabilities, and otherwise the bar chart
    of the same two counts. *)
Theorem page_figures_always_found (m : metrics) (proba : option (list float64)) :
  let figures := create_prediction_visualizations m proba in
  dom figures
  = match proba with
    | Some _ => {["distribution"; "probabilities"; "counts"]}
    | None => ({["distribution"; "counts"]} : gset string)
    end /\
  exists dist right_fig,
    page_figures figures = Some (dist, right_fig) /\
    dist = PieChart [legitimate_count m; fraud_count m]
             ["Legitimate"; "Fraudulent"] "Transaction Distribution" /\
    right_fig
    = match proba with
      | Some p => HistogramChart p 20 "Fraud Probability Distribution"
      | None => BarChart ["Legitimate"; "Fraudulent"]
                  [legitimate_count m; fraud_count m] "Transaction Counts"
      end.
Proof.
  intros figures. split.
  - subst figures. unfold create_prediction_visualizations.
    destruct proba as [p|]; rewrite !dom_insert_L, dom_empty_L; set_solver.
  - do 2 eexists. split; [apply page_figures_spec|done].
Qed.

(** X22.  The right-hand panel of a rendered page is the figure the
    handler picks among those built from the metrics shown on the page
    and the probabilities these metrics were computed from; both of its
    look-ups succeed. *)
Theorem page_right_panel parse_number to_numeric_raises np_mean np_max np_min
    format_fixed format_thousands now render_float read_csv MODEL MODEL_PATH
    (store : gmap string bytes) (files : gmap string upload) (token : string)
    (page : results_page) :
  (predict parse_number to_numeric_raises np_mean np_max np_min
     format_fixed format_thousands now render_float read_csv MODEL MODEL_PATH
     store files token).1 = Rendered page ->
  exists predictions proba dist right_fig,
    calculate_risk_metrics np_mean np_max np_min predictions proba
      = Some (page_metrics page) /\
    page_figures (create_prediction_visualizations (page_metrics page) proba)
      = Some (dist, right_fig) /\
    chart_of right_fig = Some (right_chart page).
Proof.
  intros Hpage.
  destruct (predict_rendered_inv _ _ _ _ _ _ _ _ _ _ _ _ _ _ _ _ Hpage)
    as (file & m & df0 & h & f & labels & features & df & predictions & proba
        & metrics & results_df & _ & _ & _ & _ & _ & _ & _ & _ & _ & Hm & _ & -> & _).
  do 2 eexists. eexists _, _. simpl.
  split; [done|]. split; [apply page_figures_spec|].
  by destruct proba.
Qed.

Lemma page_right_panel_witness :
  exists page predictions proba dist right_fig,
    (example_predict (Some example_model) ∅ "token-1").1 = Rendered page /\
    calculate_risk_metrics (fun _ => F64.zero) (fun _ => F64.zero) (fun _ => F64.zero)
      predictions proba = Some (page_metrics page) /\
    page_figures (create_prediction_visualizations (page_metrics page) proba)
      = Some (dist, right_fig) /\
    chart_of right_fig = Some (right_chart page).
Proof.
  assert (exists page, (example_predict (Some example_model) ∅ "token-1").1 = Rendered page)
    as [page Hpage] by (vm_compute; by eexists).
  exists page.
  destruct (page_right_panel (fun _ => None) (fun _ => false)
              (fun _ => F64.zero) (fun _ => F64.zero) (fun _ => F64.zero)
              (fun _ _ => "0.00") (fun _ => "0") "2024-01-01 00:00:00" (fun _ => "0.0")
              (fun _ => inr example_upload_table) (Some example_model) (Some "model.pkl")
              ∅ example_files "token-1" page Hpage)
    as (predictions & proba & dist & right_fig & H).
  by exists predictions, proba, dist, right_fig.
Defined.

(** ** Formatting a file size *)

(** Dividing a normal double by [1024.0] lowers its exponent by ten and
    rounds nothing away. *)
Lemma div_1024_exact s m e :
  2 ^ 52 <= Zpos m < 2 ^ 53 -> -1063 <= e <= 980 ->
  F64.div (S754_finite s m e) lit_1024 = S754_finite s m (e - 10).
Proof.
  intros Hm He.
  assert (Hd : Zdigits2 (Zpos m) = 53) by (apply Zdigits2_unique; lia).
  unfold F64.div, SFdiv, lit_1024, SFdiv_core_binary. rewrite Hd.
  change (Zdigits2 (Z.pos 4503599627370496)) with 53.
  unfold fexp, emin, F64.prec, F64.emax.
  replace (53 + e - (53 + -42)) with (e + 42) by lia.
  rewrite Z.max_l, Z.min_l by lia.
  replace (e - -42 - (e + 42 - 53)) with 53 by lia.
  cbv iota. rewrite Z.shiftl_mul_pow2 by lia.
  replace (Z.pos m * 2 ^ 53) with (2 * Z.pos m * 4503599627370496) by lia.
  pose proof (Z.mod_mul (2 * Z.pos m) 4503599627370496 ltac:(lia)) as Hr.
  pose proof (Z.div_mul (2 * Z.pos m) 4503599627370496 ltac:(lia)) as Hq.
  unfold Z.modulo, Z.div in Hr, Hq.
  destruct (Z.div_eucl _ _) as [q r]. subst q r.
  change (new_location 4503599627370496 0) with loc_Exact.
  assert (Hd2 : Zdigits2 (2 * Z.pos m) = 54) by (apply Zdigits2_unique; lia).
  destruct (binary_round_aux_normal (xorb s false) (2 * Z.pos m) (e + 42 - 53))
    as (m' & e' & -> & Hm' & Habs & He'); [lia|lia|lia|lia|].
  rewrite Hd2 in Habs, He'. change (2 ^ (54 - 53)) with 2 in Habs.
  rewrite xorb_false_r.
  destruct He' as [->|[-> Hm2]].
  - replace (e + 42 - 53 + 54 - 53 - (e + 42 - 53)) with 1 in Habs by lia.
    change (2 ^ 1) with 2 in Habs.
    assert (m' = m) by lia. subst. f_equal. lia.
  - replace (e + 42 - 53 + 54 - 52 - (e + 42 - 53)) with 2 in Habs by lia.
    change (2 ^ 2) with 4 in Habs. lia.
Qed.

(** A positive normal double is at least 1024 exactly when its
    exponent is at least that of [1024.0]. *)
Lemma ge_1024_normal m e :
  2 ^ 52 <= Zpos m < 2 ^ 53 ->
  F64.le lit_1024 (S754_finite false m e) = (-42 <=? e).
Proof.
  intros Hm. unfold F64.le, SFleb, lit_1024.
  cbv beta iota delta [SFcompare].
  destruct (Z.compare_spec (-42) e) as [Heq|Hlt|Hgt].
  - subst e.
    change (Pos.compare_cont Eq 4503599627370496 m) with (Z.pos 4503599627370496 ?= Z.pos m).
    destruct (Z.compare_spec (Z.pos 4503599627370496) (Z.pos m)) as [H|H|H];
      [reflexivity|reflexivity|].
    exfalso. change (2 ^ 52) with 4503599627370496 in Hm. lia.
  - symmetry. apply Z.leb_le. lia.
  - symmetry. apply Z.leb_gt. lia.
Qed.

(** The exponent of the double of an integer tells its size in bits. *)
Lemma of_int_exponent n m e k :
  Z.pos m = n * 2 ^ (- e) -> 2 ^ 52 <= Z.pos m < 2 ^ 53 -> -52 <= e <= 0 ->
  0 <= k <= 52 ->
  (2 ^ k <=? n) = (k - 52 <=? e).
Proof.
  intros Hm Hb He Hk.
  assert (Hn : 0 < n).
  { assert (0 < 2 ^ (- e)) by (apply Z.pow_pos_nonneg; lia). nia. }
  destruct (Z.leb_spec (k - 52) e) as [Hle|Hlt].
  - apply Z.leb_le.
    assert (H1 : 2 ^ (- e) <= 2 ^ (52 - k)) by (apply Z.pow_le_mono_r; lia).
    assert (H2 : 2 ^ 52 = 2 ^ k * 2 ^ (52 - k)).
    { rewrite <- Z.pow_add_r by lia. f_equal. lia. }
    assert (H3 : 0 < 2 ^ (52 - k)) by (apply Z.pow_pos_nonneg; lia).
    assert (H4 : 2 ^ k * 2 ^ (52 - k) <= n * 2 ^ (52 - k)) by nia.
    nia.
  - apply Z.leb_gt.
    assert (H1 : 2 ^ (53 - k) <= 2 ^ (- e)) by (apply Z.pow_le_mono_r; lia).
    assert (H2 : 2 ^ 53 = 2 ^ k * 2 ^ (53 - k)).
    { rewrite <- Z.pow_add_r by lia. f_equal. lia. }
    assert (H3 : 0 < 2 ^ (53 - k)) by (apply Z.pow_pos_nonneg; lia).
    assert (H4 : n * 2 ^ (53 - k) < 2 ^ k * 2 ^ (53 - k)) by nia.
    nia.
Qed.

Lemma binary_round_aux_opp mx ex lx :
  binary_round_aux 53 1024 true mx ex lx
  = SFopp (binary_round_aux 53 1024 false mx ex lx).
Proof.
  unfold binary_round_aux.
  destruct (shr_fexp 53 1024 mx ex lx) as [mrs' e'].
  destruct (shr_fexp 53 1024 _ e' loc_Exact) as [mrs'' e''].
  destruct (shr_m mrs''); [reflexivity| |reflexivity].
  by destruct (_ <=? _).
Qed.

(** The double of a negative integer is the opposite of the double of
    its absolute value. *)
Lemma of_int_opp z : 0 < z -> F64.of_int (- z) = SFopp (F64.of_int z).
Proof.
  intros Hz. destruct z as [|p|p]; [lia| |lia].
  change (- Z.pos p) with (Z.neg p).
  unfold F64.of_int, F64.prec, F64.emax, binary_normalize, binary_round.
  destruct (shl_align _ _ _) as [mz ez]. apply binary_round_aux_opp.
Qed.

Lemma scale_size_step turns size_bytes i :
  scale_size (S turns) size_bytes i
  = if ge_1024 size_bytes then
      match div_1024 size_bytes with
      | Some f => scale_size turns (PyFloat f) (S i)
      | None => None
      end
    else Some (size_bytes, i).
Proof. reflexivity. Qed.

(** One turn of the loop on a normal double. *)
Lemma scale_size_float turns m e i :
  2 ^ 52 <= Zpos m < 2 ^ 53 -> -1063 <= e <= 980 ->
  scale_size (S turns) (PyFloat (S754_finite false m e)) i
  = if -42 <=? e then scale_size turns (PyFloat (S754_finite false m (e - 10))) (S i)
    else Some (PyFloat (S754_finite false m e), i).
Proof.
  intros Hm He. rewrite scale_size_step. unfold ge_1024, div_1024.
  by rewrite ge_1024_normal, div_1024_exact.
Qed.

(** X23.  For a size of 1 byte up to 2^53 - 1 bytes the unit is B below
    1 KiB, KB below 1 MiB, MB below 1 GiB and GB from there on, however
    large; and the number printed is the size divided by 1024 once per
    unit step without any rounding: the double of the size, itself
    exact, with its exponent lowered by ten per step. *)
Theorem format_file_size_units (format_1f : float64 -> string) (n : Z) :
  0 < n < 2 ^ 53 ->
  exists m e name,
    F64.of_int n = S754_finite false m e /\ Z.pos m = n * 2 ^ (- e) /\
    size_names !! unit_index n = Some name /\
    format_file_size format_1f n
    = Some (format_1f (shift_exponent (F64.of_int n) (10 * Z.of_nat (unit_index n)))
            +:+ " " +:+ name).
Proof.
  intros Hn.
  destruct (of_int_exact n Hn) as (m & e & Hf & Hm & He & Hexact).
  pose proof (of_int_exponent n m e 10 Hexact Hm He ltac:(lia)) as H10.
  pose proof (of_int_exponent n m e 20 Hexact Hm He ltac:(lia)) as H20.
  pose proof (of_int_exponent n m e 30 Hexact Hm He ltac:(lia)) as H30.
  exists m, e.
  assert (Hfl : float_of_int n = Some (S754_finite false m e)).
  { unfold float_of_int. by rewrite Hf. }
  unfold format_file_size, unit_index.
  replace (n =? 0) with false by (symmetry; apply Z.eqb_neq; lia).
  rewrite Hf. change (length size_names - 1)%nat with 3%nat.
  rewrite !(Z.ltb_antisym (2 ^ _) n), H10, H20, H30.
  rewrite scale_size_step.
  change (ge_1024 (PyInt n)) with (2 ^ 10 <=? n). rewrite H10.
  change (div_1024 (PyInt n)) with ((fun f => F64.div f lit_1024) <$> float_of_int n).
  rewrite Hfl. cbn [fmap option_fmap option_map].
  rewrite div_1024_exact by lia.
  destruct (Z.leb_spec (10 - 52) e) as [H1|H1]; cbn [negb].
  2:{ exists "B". unfold format_number. rewrite Hfl. cbn.
      by rewrite Z.sub_0_r. }
  rewrite scale_size_float by lia.
  replace (-42 <=? e - 10) with (20 - 52 <=? e)
    by (destruct (Z.leb_spec (20 - 52) e), (Z.leb_spec (-42) (e - 10)); lia).
  destruct (Z.leb_spec (20 - 52) e) as [H2|H2]; cbn [negb].
  2:{ exists "KB". cbn. by repeat split. }
  rewrite scale_size_float by lia.
  replace (-42 <=? e - 10 - 10) with (30 - 52 <=? e)
    by (destruct (Z.leb_spec (30 - 52) e), (Z.leb_spec (-42) (e - 10 - 10)); lia).
  destruct (Z.leb_spec (30 - 52) e) as [H3|H3]; cbn [negb].
  2:{ exists "MB". cbn. repeat split; try done.
      by replace (e - 10 * Z.of_nat 2) with (e - 10 - 10) by lia. }
  exists "GB". cbn. repeat split; try done.
  by replace (e - 10 * Z.of_nat 3) with (e - 10 - 10 - 10) by lia.
Qed.

Lemma format_file_size_units_witness :
  exists m e name,
    F64.of_int 1536 = S754_finite false m e /\ Z.pos m = 1536 * 2 ^ (- e) /\
    size_names !! unit_index 1536 = Some name /\
    format_file_size (fun _ => "1.5") 1536
    = Some ((fun _ => "1.5")
              (shift_exponent (F64.of_int 1536) (10 * Z.of_nat (unit_index 1536)))
            +:+ " " +:+ name).
Proof. apply (format_file_size_units (fun _ => "1.5") 1536). lia. Defined.

(** X24.  A negative size is never scaled: whatever its magnitude it is
    printed in full, as a double with one decimal, with the unit B. *)
Theorem format_file_size_negative (format_1f : float64 -> string) (n : Z) :
  - 2 ^ 1023 < n < 0 ->
  F64.is_nan (F64.of_int n) = false /\
  format_file_size format_1f n = Some (format_1f (F64.of_int n) +:+ " B").
Proof.
  intros Hn.
  destruct (of_int_finite (- n) ltac:(lia)) as (m & e & Hf & _).
  assert (Hopp : F64.of_int n = S754_finite true m e).
  { replace n with (- - n) by lia. rewrite of_int_opp by lia. by rewrite Hf. }
  split; [by rewrite Hopp|].
  unfold format_file_size.
  replace (n =? 0) with false by (symmetry; apply Z.eqb_neq; lia).
  simpl length. simpl scale_size.
  replace (1024 <=? n) with false by (symmetry; apply Z.leb_gt; lia).
  simpl. unfold float_of_int. by rewrite Hopp.
Qed.

Lemma format_file_size_negative_witness :
  F64.is_nan (F64.of_int (-5368709120)) = false /\
  format_file_size (fun _ => "-5368709120.0") (-5368709120)
  = Some ((fun _ => "-5368709120.0") (F64.of_int (-5368709120)) +:+ " B").
Proof. apply (format_file_size_negative (fun _ => "-5368709120.0") (-5368709120)). lia. Defined.
